(** * Eventide-AI: media extraction and fusion pipeline

    A shallow embedding of the backend services that turn a flyer image, a
    video URL or free text into one structured event record:

    - [VideoFrameExtractor] (services/video-frame-extractor.ts): frame
      timestamp sampling, ingestion strategies, audio extraction, temp files;
    - [AudioTranscriber] (services/audio-transcriber.ts): single-shot and
      chunked speech-to-text;
    - [QRCodeExtractor] (services/qr-code-extractor.ts): the decoding
      strategy chain;
    - [GeminiExtractor] (services/gemini-extractor.ts): time and date
      normalisation of the interpreter's answer;
    - the extraction route (routes/extract.ts): stage 3 merge and the
      caller's date defaulting.

    JavaScript numbers that carry durations are modelled as exact rationals
    [Q]; timestamps after [Math.floor] are integers [Z].  Exceptions are an
    explicit result type [Exc]; external services (ffmpeg, yt-dlp, the speech
    and vision APIs, the canvas and QR libraries) are section variables or
    fields of an environment record. *)

From Stdlib Require Import ZArith QArith Qround Qminmax Lia Lqa Ascii String.
From stdpp Require Import base list sorting strings pretty gmap.

Set Warnings "-clear-no-such-hyp".

Local Open Scope Z_scope.

(** ** JavaScript primitives *)

Module Js.

(** The outcome of a call that may throw: [Ok v] or [Throw message]. *)
Inductive Exc (A : Type) : Type :=
| Ok (v : A)
| Throw (message : string).
Arguments Ok {A} v.
Arguments Throw {A} message.

Definition bindE {A B} (m : Exc A) (k : A -> Exc B) : Exc B :=
  match m with
  | Ok v => k v
  | Throw e => Throw e
  end.

(** [try { body } catch (error) { handler(error.message) }] *)
Definition tryCatch {A} (body : Exc A) (handler : string -> Exc A) : Exc A :=
  match body with
  | Ok v => Ok v
  | Throw e => handler e
  end.

Definition throws {A} (m : Exc A) : Prop := exists e, m = Throw e.

(** A value that is a string, or [undefined]/[null]. *)
Definition truthy (s : option string) : bool :=
  match s with
  | Some s => negb (String.eqb s "")
  | None => false
  end.

(** [s || ''] *)
Definition orEmpty (s : option string) : string :=
  match s with
  | Some s => s
  | None => ""
  end.

(** [parts.filter(Boolean).join(sep)] on an array of strings. *)
Definition filterBoolean (parts : list string) : list string :=
  List.filter (fun s => negb (String.eqb s "")) parts.

Fixpoint join (sep : string) (parts : list string) : string :=
  match parts with
  | [] => ""
  | [p] => p
  | p :: rest => p +:+ sep +:+ join sep rest
  end.

End Js.

Import Js.

Notation "'await' x ':=' m 'in' k" := (bindE m (fun x => k))
  (at level 10, x name, m at level 100, k at level 200).

(** ** Frame sampler: [VideoFrameExtractor.calculateSmartTimestamps] *)

Module FrameSampler.

Definition Qltb (x y : Q) : bool := negb (Qle_bool y x).

(** [for (let t = 5; t < earlyWindow; t += 10) { if (t < duration)
    timestamps.push(Math.floor(t)); }].  The loop counter is a number, so
    the loop is run on fuel; [None] is "fuel exhausted before the guard
    failed". *)
Fixpoint earlyLoop (fuel : nat) (t earlyWindow duration : Q)
    (timestamps : list Z) : option (list Z) :=
  if Qltb t earlyWindow then
    match fuel with
    | O => None
    | S fuel' =>
        earlyLoop fuel' (t + 10)%Q earlyWindow duration
          (if Qltb t duration then timestamps ++ [Qfloor t] else timestamps)
    end
  else Some timestamps.

(** [for (let i = 1; i <= remainingFrames; i++) { const timestamp =
    startTime + interval * i; if (timestamp < duration)
    timestamps.push(Math.floor(timestamp)); }], the indices given as a list. *)
Fixpoint spreadLoop (indices : list Z) (startTime interval duration : Q)
    (timestamps : list Z) : list Z :=
  match indices with
  | [] => timestamps
  | i :: rest =>
      let timestamp := (startTime + interval * inject_Z i)%Q in
      spreadLoop rest startTime interval duration
        (if Qltb timestamp duration then timestamps ++ [Qfloor timestamp]
         else timestamps)
  end.

(** [[...new Set(timestamps)]]: first occurrences, in insertion order. *)
Fixpoint setOf (seen : list Z) (timestamps : list Z) : list Z :=
  match timestamps with
  | [] => []
  | t :: rest =>
      if bool_decide (t ∈ seen) then setOf seen rest
      else t :: setOf (t :: seen) rest
  end.

(** [.sort((a, b) => a - b)] *)
Definition sortAscending (l : list Z) : list Z := merge_sort Z.le l.

(** The loop bound: [earlyWindow <= 60], so the counter 5, 15, ... passes
    the guard at most six times. *)
Definition earlyFuel : nat := 6.

Definition calculateSmartTimestamps (duration : Q) (frameCount : Z)
    : option (list Z) :=
  let timestamps := [0] in
  let earlyWindow := Qmin 60 (duration * 0.2)%Q in
  match earlyLoop earlyFuel 5 earlyWindow duration timestamps with
  | None => None
  | Some timestamps =>
      let remainingFrames := frameCount - Z.of_nat (length timestamps) in
      let timestamps :=
        if 0 <? remainingFrames then
          let startTime := Qmax earlyWindow (duration * 0.1)%Q in
          let endTime := (duration * 0.9)%Q in
          let interval :=
            ((endTime - startTime) / inject_Z (remainingFrames + 1))%Q in
          spreadLoop (seqZ 1 remainingFrames) startTime interval duration
            timestamps
        else timestamps in
      let uniqueTimestamps := sortAscending (setOf [] timestamps) in
      Some (take 15 uniqueTimestamps)
  end.

End FrameSampler.

(** ** Strings

    JavaScript strings are modelled as [string], read as sequences of
    Latin-1 code units. *)

Module Str.

Definition chars (s : string) : list ascii := list_ascii_of_string s.
Definition ofChars (l : list ascii) : string := string_of_list_ascii l.

Definition code (c : ascii) : nat := nat_of_ascii c.

(** [\d] *)
Definition isDigit (c : ascii) : bool :=
  ((48 <=? code c) && (code c <=? 57))%nat.

(** [\s] and the characters stripped by [trim]: TAB, LF, VT, FF, CR, SP and
    NBSP. *)
Definition isWhiteSpace (c : ascii) : bool :=
  bool_decide (code c ∈ [9; 10; 11; 12; 13; 32; 160]%nat).

Fixpoint trimStartChars (l : list ascii) : list ascii :=
  match l with
  | c :: rest => if isWhiteSpace c then trimStartChars rest else l
  | [] => []
  end.

Definition trimChars (l : list ascii) : list ascii :=
  rev (trimStartChars (rev (trimStartChars l))).

(** [s.trim()] *)
Definition trim (s : string) : string := ofChars (trimChars (chars s)).

(** Anchored patterns made of [\d] and literal characters. *)
Inductive atom : Type :=
| D
| Lit (c : ascii).

Fixpoint matchPrefix (pattern : list atom) (l : list ascii)
    : option (list ascii) :=
  match pattern, l with
  | [], _ => Some l
  | D :: pattern', c :: rest =>
      if isDigit c then matchPrefix pattern' rest else None
  | Lit x :: pattern', c :: rest =>
      if Ascii.eqb x c then matchPrefix pattern' rest else None
  | _ :: _, [] => None
  end.

(** [/^pattern/.test(s)] *)
Definition testPrefix (pattern : list atom) (s : string) : bool :=
  match matchPrefix pattern (chars s) with
  | Some _ => true
  | None => false
  end.

(** [/^pattern$/.test(s)] *)
Definition testWhole (pattern : list atom) (s : string) : bool :=
  match matchPrefix pattern (chars s) with
  | Some [] => true
  | _ => false
  end.

(** [/^p1$|^p2$|.../.test(s)], for a pattern with [\d{1,2}] spelled out as
    its fixed-width instances. *)
Definition testWholeAny (patterns : list (list atom)) (s : string) : bool :=
  existsb (fun pattern => testWhole pattern s) patterns.

Fixpoint isPrefixOf (needle l : list ascii) : bool :=
  match needle, l with
  | [], _ => true
  | x :: needle', c :: rest => Ascii.eqb x c && isPrefixOf needle' rest
  | _ :: _, [] => false
  end.

Fixpoint includesChars (needle l : list ascii) : bool :=
  isPrefixOf needle l ||
  match l with
  | [] => false
  | _ :: rest => includesChars needle rest
  end.

(** [s.includes(needle)] *)
Definition includes (s needle : string) : bool :=
  includesChars (chars needle) (chars s).

(** [s.split(sep)] for a one-character separator. *)
Fixpoint splitChars (sep : ascii) (current : list ascii) (l : list ascii)
    : list string :=
  match l with
  | [] => [ofChars (rev current)]
  | c :: rest =>
      if Ascii.eqb c sep then ofChars (rev current) :: splitChars sep [] rest
      else splitChars sep (c :: current) rest
  end.

Definition split (s : string) (sep : ascii) : list string :=
  splitChars sep [] (chars s).

(** The value of a digit in the given radix, if it is one. *)
Definition digitValue (radix : Z) (c : ascii) : option Z :=
  let n := Z.of_nat (code c) in
  let v :=
    if (48 <=? n) && (n <=? 57) then Some (n - 48)
    else if (97 <=? n) && (n <=? 122) then Some (n - 87)
    else if (65 <=? n) && (n <=? 90) then Some (n - 55)
    else None in
  match v with
  | Some v => if v <? radix then Some v else None
  | None => None
  end.

(** The longest prefix of digits, read in the radix; [None] without one. *)
Fixpoint readDigits (radix : Z) (acc : option Z) (l : list ascii) : option Z :=
  match l with
  | [] => acc
  | c :: rest =>
      match digitValue radix c with
      | Some v => readDigits radix (Some (radix * default 0 acc + v)) rest
      | None => acc
      end
  end.

(** [parseInt(s)] without a radix: leading white space, a sign, a [0x]
    prefix; [None] is [NaN]. *)
Definition parseInt (s : string) : option Z :=
  let l := trimStartChars (chars s) in
  let '(sign, l) :=
    match l with
    | "-"%char :: rest => (-1, rest)
    | "+"%char :: rest => (1, rest)
    | _ => (1, l)
    end in
  let '(radix, l) :=
    match l with
    | "0"%char :: "x"%char :: rest => (16, rest)
    | "0"%char :: "X"%char :: rest => (16, rest)
    | _ => (10, l)
    end in
  match readDigits radix None l with
  | Some v => Some (sign * v)
  | None => None
  end.

(** [n.toString()] for an integer. *)
Definition toString (n : Z) : string := pretty n.

(** [s.padStart(2, '0')] *)
Definition padStart2 (s : string) : string :=
  match String.length s with
  | 0%nat => "00"
  | 1%nat => "0" +:+ s
  | _ => s
  end.

(** [s.split(/\s+/)] *)
Fixpoint splitWhiteSpace (inGap : bool) (current : list ascii)
    (l : list ascii) : list string :=
  match l with
  | [] => [ofChars (rev current)]
  | c :: rest =>
      if isWhiteSpace c then
        if inGap then splitWhiteSpace true current rest
        else ofChars (rev current) :: splitWhiteSpace true [] rest
      else splitWhiteSpace false (c :: current) rest
  end.

Definition words (s : string) : list string :=
  splitWhiteSpace false [] (chars s).

End Str.

(** ** The draft event shape shared by every extraction source *)

Module Event.

(** A field is a string, or absent ([undefined] or [null]). *)
Record DraftEvent : Type := {
  title : option string;
  description : option string;
  date : option string;
  time : option string;
  endTime : option string;
  location : option string;
  eventType : option string;
  venueType : option string
}.

Definition setDescription (v : option string) (e : DraftEvent) : DraftEvent :=
  {| title := title e; description := v; date := date e; time := time e;
     endTime := endTime e; location := location e;
     eventType := eventType e; venueType := venueType e |}.

Definition setTime (v : option string) (e : DraftEvent) : DraftEvent :=
  {| title := title e; description := description e; date := date e;
     time := v; endTime := endTime e; location := location e;
     eventType := eventType e; venueType := venueType e |}.

Definition setEndTime (v : option string) (e : DraftEvent) : DraftEvent :=
  {| title := title e; description := description e; date := date e;
     time := time e; endTime := v; location := location e;
     eventType := eventType e; venueType := venueType e |}.

Definition setEventType (v : option string) (e : DraftEvent) : DraftEvent :=
  {| title := title e; description := description e; date := date e;
     time := time e; endTime := endTime e; location := location e;
     eventType := v; venueType := venueType e |}.

Definition setVenueType (v : option string) (e : DraftEvent) : DraftEvent :=
  {| title := title e; description := description e; date := date e;
     time := time e; endTime := endTime e; location := location e;
     eventType := eventType e; venueType := v |}.

End Event.

(** ** Interpreter answer normalisation: [GeminiExtractor] *)

Module GeminiExtractor.
Import Str.

(** [/^\d{4}-\d{2}-\d{2}/] *)
Definition isoDate : list atom :=
  [D; D; D; D; Lit "-"; D; D; Lit "-"; D; D].
(** [/^\d{2}\/\d{2}\/\d{4}/] *)
Definition slashDate : list atom :=
  [D; D; Lit "/"; D; D; Lit "/"; D; D; D; D].
(** [/^\d{2}:\d{2}:\d{2}$/] *)
Definition hhmmss : list atom := [D; D; Lit ":"; D; D; Lit ":"; D; D].
(** [/^\d{2}:\d{2}$/] *)
Definition hhmm : list atom := [D; D; Lit ":"; D; D].

(** A match of [/(\d{1,2}):?(\d{2})?\s*(am|pm)/i]: group 1, group 2 (or
    undefined), and whether group 3 lower-cased is ["pm"]. *)
Record AmPmMatch : Type := {
  hourDigits : string;
  minuteDigits : option string;
  isPm : bool
}.

Definition orElse {A} (x y : option A) : option A :=
  match x with
  | Some _ => x
  | None => y
  end.

(** Exactly [n] digits. *)
Definition takeDigits (n : nat) (l : list ascii)
    : option (list ascii * list ascii) :=
  if bool_decide (length (take n l) = n) && forallb isDigit (take n l)
  then Some (take n l, drop n l) else None.

Definition isLetter (lower upper c : ascii) : bool :=
  Ascii.eqb c lower || Ascii.eqb c upper.

(** [\s*(am|pm)] with the [i] flag. *)
Definition matchMeridiem (l : list ascii) : option bool :=
  match trimStartChars l with
  | c1 :: c2 :: _ =>
      if isLetter "a" "A" c1 && isLetter "m" "M" c2 then Some false
      else if isLetter "p" "P" c1 && isLetter "m" "M" c2 then Some true
      else None
  | _ => None
  end.

(** [(\d{2})?\s*(am|pm)]: two more digits first, then none. *)
Definition matchMinutes (h : list ascii) (l : list ascii) : option AmPmMatch :=
  orElse
    (match takeDigits 2 l with
     | Some (m, rest) =>
         match matchMeridiem rest with
         | Some pm => Some {| hourDigits := ofChars h;
                              minuteDigits := Some (ofChars m); isPm := pm |}
         | None => None
         end
     | None => None
     end)
    (match matchMeridiem l with
     | Some pm => Some {| hourDigits := ofChars h; minuteDigits := None;
                          isPm := pm |}
     | None => None
     end).

(** [:?] then the rest: with the colon first, then without. *)
Definition matchColon (h : list ascii) (l : list ascii) : option AmPmMatch :=
  orElse
    (match l with
     | ":"%char :: rest => matchMinutes h rest
     | _ => None
     end)
    (matchMinutes h l).

(** The pattern at one position: [\d{1,2}] takes two digits first, then
    one. *)
Definition matchAt (l : list ascii) : option AmPmMatch :=
  orElse
    (match takeDigits 2 l with
     | Some (h, rest) => matchColon h rest
     | None => None
     end)
    (match takeDigits 1 l with
     | Some (h, rest) => matchColon h rest
     | None => None
     end).

(** [time.match(...)]: the leftmost position where the pattern matches. *)
Fixpoint amPmSearch (l : list ascii) : option AmPmMatch :=
  match matchAt l with
  | Some m => Some m
  | None =>
      match l with
      | [] => None
      | _ :: rest => amPmSearch rest
      end
  end.

Definition formatTime (hours minutes : Z) : string :=
  padStart2 (toString hours) +:+ ":" +:+ padStart2 (toString minutes) +:+ ":00".

Definition inRangeZ (lo hi : Z) (n : option Z) : bool :=
  match n with
  | Some n => (lo <=? n) && (n <=? hi)
  | None => false
  end.

Definition normalizeTime (time : string) : Exc string :=
  if String.eqb time "" then Throw "Invalid time format"
  else
    let time := trim time in
    if testPrefix isoDate time || testPrefix slashDate time then
      Throw ("Invalid time format: " +:+ time +:+
             " (appears to be a date, not a time)")
    else if testWhole hhmmss time then Ok time
    else if testWhole hhmm time then Ok (time +:+ ":00")
    else
      match amPmSearch (chars time) with
      | Some m =>
          let hours := default 0 (parseInt (hourDigits m)) in
          let minutes :=
            match minuteDigits m with
            | Some digits => default 0 (parseInt digits)
            | None => 0
            end in
          let hours := if isPm m && negb (hours =? 12) then hours + 12
                       else hours in
          let hours := if negb (isPm m) && (hours =? 12) then 0 else hours in
          Ok (formatTime hours minutes)
      | None =>
          let fallthrough := Throw ("Invalid time format: " +:+ time) in
          if includes time ":" then
            match split time ":" with
            | part0 :: part1 :: _ =>
                let hours := parseInt part0 in
                if inRangeZ 0 23 hours then
                  let minutes := parseInt part1 in
                  if inRangeZ 0 59 minutes then
                    Ok (formatTime (default 0 hours) (default 0 minutes))
                  else fallthrough
                else fallthrough
            | _ => fallthrough
            end
          else fallthrough
      end.

(** [limitDescription]: at most 25 words. *)
Definition limitDescription (description : option string) : option string :=
  if negb (truthy description) then None
  else
    let trimmed := trim (orEmpty description) in
    let ws := words trimmed in
    if (length ws <=? 25)%nat then Some trimmed
    else Some (join " " (take 25 ws) +:+ "...").

(** [/^\d{4}-\d{2}-\d{2}$/] *)
Definition isoDateWhole : list atom := isoDate.
(** [/^\d{1,2}\/\d{1,2}\/\d{4}$/] *)
Definition monthDayYear : list (list atom) :=
  [ [D; Lit "/"; D; Lit "/"; D; D; D; D];
    [D; Lit "/"; D; D; Lit "/"; D; D; D; D];
    [D; D; Lit "/"; D; Lit "/"; D; D; D; D];
    [D; D; Lit "/"; D; D; Lit "/"; D; D; D; D] ].
(** [/^\d{4}\/\d{1,2}\/\d{1,2}$/] *)
Definition yearMonthDay : list (list atom) :=
  [ [D; D; D; D; Lit "/"; D; Lit "/"; D];
    [D; D; D; D; Lit "/"; D; Lit "/"; D; D];
    [D; D; D; D; Lit "/"; D; D; Lit "/"; D];
    [D; D; D; D; Lit "/"; D; D; Lit "/"; D; D] ].

(** [Number(s)] on a string of decimal digits. *)
Definition numberOf (s : string) : Z :=
  default 0 (readDigits 10 None (chars s)).

Section Normalize.

(** The JavaScript [Date] object, as far as the extractor uses it:
    [localDate y m d] is [new Date(y, m, d)] read back through
    [getFullYear()], [getMonth()], [getDate()], and [parseDate s] is
    [new Date(s)] read back the same way; [None] is an invalid date. *)
Variable localDate : Z -> Z -> Z -> option (Z * Z * Z).
Variable parseDate : string -> option (Z * Z * Z).

Definition formatDate (ymd : Z * Z * Z) : string :=
  let '(year, month, day) := ymd in
  toString year +:+ "-" +:+ padStart2 (toString (month + 1)) +:+ "-" +:+
  padStart2 (toString day).

(** The date block of [validateAndNormalize]: [normalizedDate], which is
    [None] for [null]. *)
Definition normalizeDate (date : option string) : Exc (option string) :=
  if truthy date && negb (String.eqb (orEmpty date) "null") then
    let dateStr := trim (orEmpty date) in
    if testWhole isoDateWhole dateStr then
      match map numberOf (split dateStr "-") with
      | [year; month; day] =>
          match localDate year (month - 1) day with
          | Some (y, m, d) =>
              if (y =? year) && (m =? month - 1) && (d =? day)
              then Ok (Some dateStr)
              else Throw "Invalid date format"
          | None => Throw "Invalid date format"
          end
      | _ => Throw "Invalid date format"
      end
    else
      let parsed :=
        if testWholeAny monthDayYear dateStr then
          match map numberOf (split dateStr "/") with
          | [month; day; year] => localDate year (month - 1) day
          | _ => None
          end
        else if testWholeAny yearMonthDay dateStr then
          match map numberOf (split dateStr "/") with
          | [year; month; day] => localDate year (month - 1) day
          | _ => None
          end
        else parseDate dateStr in
      match parsed with
      | None => Throw ("Invalid date format: " +:+ dateStr)
      | Some ymd => Ok (Some (formatDate ymd))
      end
  else Ok None.

(** [try { x = this.normalizeTime(x) } catch { x = undefined }] under
    [if (x)]. *)
Definition normalizeOptionalTime (t : option string) : option string :=
  if truthy t then
    match normalizeTime (orEmpty t) with
    | Ok v => Some v
    | Throw _ => None
    end
  else None.

Definition validateAndNormalize (extracted : Event.DraftEvent)
    : Exc Event.DraftEvent :=
  if negb (truthy (Event.title extracted)) then Throw "Title is required"
  else
    await normalizedDate := normalizeDate (Event.date extracted) in
    let time := normalizeOptionalTime (Event.time extracted) in
    let endTime :=
      if truthy (Event.endTime extracted)
      then normalizeOptionalTime (Event.endTime extracted)
      else Event.endTime extracted in
    let finalDate := if truthy normalizedDate then orEmpty normalizedDate
                     else "" in
    Ok {| Event.title := Some (trim (orEmpty (Event.title extracted)));
          Event.description := limitDescription (Event.description extracted);
          Event.date := Some finalDate;
          Event.time := time;
          Event.endTime := endTime;
          Event.location := option_map trim (Event.location extracted);
          Event.eventType := None;
          Event.venueType := None |}.

(** [extractFromText]: [generate text] is the interpreter's answer to the
    prompt built around [text], already through [JSON.parse]; a failed call,
    an answer without JSON and a parse error are its [Throw]. *)
Variable generate : string -> Exc Event.DraftEvent.

Definition extractFromText (text : string) : Exc Event.DraftEvent :=
  tryCatch
    (await extracted := generate text in validateAndNormalize extracted)
    (fun message => Throw ("Extraction failed: " +:+ message)).

End Normalize.

End GeminiExtractor.

(** ** The extraction route for a video URL: routes/extract.ts *)

Module ExtractRoute.
Import Str Event.

(** What [urlExpander.expand] resolves to. *)
Record Metadata : Type := {
  metaTitle : option string;
  metaDescription : option string;
  imageUrl : option string
}.

(** [{ title: '', date: '', description: '', location: '', eventType: '',
    venueType: '' }], the stand-in for a track that failed or timed out. *)
Definition emptyAnalysis : DraftEvent :=
  {| title := Some ""; description := Some ""; date := Some "";
     time := None; endTime := None; location := Some "";
     eventType := Some ""; venueType := Some "" |}.

(** The console line that names the branch taken by stage 3. *)
Inductive Using : Type :=
| UsingFrameAnalysis
| UsingDescriptionAnalysis
| UsingCombinedExtraction.

(** [a.title && a.date] *)
Definition complete (a : DraftEvent) : bool :=
  truthy (title a) && truthy (date a).

(** [combinedText] of stage 3. *)
Definition combinedText (metadata : Metadata) (transcription : string)
    (frameAnalyses descriptionAnalysis : DraftEvent) (data : string) : string :=
  join " " (filterBoolean
    [ orEmpty (metaTitle metadata);
      orEmpty (metaDescription metadata);
      transcription;
      orEmpty (title frameAnalyses);
      orEmpty (date frameAnalyses);
      orEmpty (time frameAnalyses);
      orEmpty (location frameAnalyses);
      orEmpty (description frameAnalyses);
      orEmpty (title descriptionAnalysis);
      orEmpty (date descriptionAnalysis);
      orEmpty (time descriptionAnalysis);
      orEmpty (location descriptionAnalysis);
      orEmpty (description descriptionAnalysis);
      data ]).

(** [if (!extracted.f && other.f) extracted.f = other.f] *)
Definition fill (mine other : option string) : option string :=
  if negb (truthy mine) && truthy other then other else mine.

(** The frame-wins branch after [extracted = frameAnalyses]. *)
Definition mergeFromDescription (frameAnalyses descriptionAnalysis : DraftEvent)
    : DraftEvent :=
  let extracted := frameAnalyses in
  if complete descriptionAnalysis then
    let extracted :=
      setDescription
        (fill (description extracted) (description descriptionAnalysis))
        extracted in
    let extracted :=
      setTime (fill (time extracted) (time descriptionAnalysis)) extracted in
    setEndTime (fill (endTime extracted) (endTime descriptionAnalysis))
      extracted
  else extracted.

(** [if (!extracted.time && extracted.endTime) extracted.endTime =
    undefined] *)
Definition dropAllDayEndTime (extracted : DraftEvent) : DraftEvent :=
  if negb (truthy (time extracted)) && truthy (endTime extracted)
  then setEndTime None extracted else extracted.

(** [if (frameAnalyses.eventType && !extracted.eventType) ...], and the
    same for [venueType]. *)
Definition preserveTypes (frameAnalyses extracted : DraftEvent) : DraftEvent :=
  let extracted :=
    if truthy (eventType frameAnalyses) && negb (truthy (eventType extracted))
    then setEventType (eventType frameAnalyses) extracted else extracted in
  if truthy (venueType frameAnalyses) && negb (truthy (venueType extracted))
  then setVenueType (venueType frameAnalyses) extracted else extracted.

Section Route.

Variable localDate : Z -> Z -> Z -> option (Z * Z * Z).
Variable parseDate : string -> option (Z * Z * Z).
Variable generate : string -> Exc DraftEvent.

Definition extractFromText : string -> Exc DraftEvent :=
  GeminiExtractor.extractFromText localDate parseDate generate.

(** Stage 3: combine all sources and extract. *)
Definition stage3 (metadata : Metadata) (transcription : string)
    (frameAnalyses descriptionAnalysis : DraftEvent) (data : string)
    : Exc (Using * DraftEvent) :=
  let combined :=
    combinedText metadata transcription frameAnalyses descriptionAnalysis
      data in
  if complete frameAnalyses then
    Ok (UsingFrameAnalysis,
        mergeFromDescription frameAnalyses descriptionAnalysis)
  else if complete descriptionAnalysis then
    let extracted := dropAllDayEndTime descriptionAnalysis in
    Ok (UsingDescriptionAnalysis, preserveTypes frameAnalyses extracted)
  else
    await extracted := extractFromText combined in
    let extracted := dropAllDayEndTime extracted in
    Ok (UsingCombinedExtraction, preserveTypes frameAnalyses extracted).

(** Stage 2, frame track: [frames.length > 0 ? race(...).catch(...) :
    empty]; [raced] is the outcome of the race between
    [extractFromVideoFrames] and its 15 s timer. *)
Definition frameTrack (frames : nat) (raced : Exc DraftEvent) : DraftEvent :=
  if (0 <? frames)%nat then
    match raced with
    | Ok analysis => analysis
    | Throw _ => emptyAnalysis
    end
  else emptyAnalysis.

(** Stage 2, description track; [timedOut] says the 10 s timer won. *)
Definition descriptionTrack (metadata : Metadata) (timedOut : bool)
    : DraftEvent :=
  let descText :=
    trim (orEmpty (metaTitle metadata) +:+ " " +:+
          orEmpty (metaDescription metadata)) in
  let raced :=
    if timedOut then Throw "Description parsing timeout"
    else if negb (String.eqb descText "") then extractFromText descText
    else Ok emptyAnalysis in
  match raced with
  | Ok analysis => analysis
  | Throw _ => emptyAnalysis
  end.

(** Stage 2, transcription track: [audioPath ? race(...).catch(() => '') :
    '']. *)
Definition transcriptionTrack (audioPath : option string)
    (raced : Exc string) : string :=
  if truthy audioPath then
    match raced with
    | Ok text => text
    | Throw _ => ""
    end
  else "".

(** The video branch of step 1: stages 1 to 3, and on any throw the
    metadata-only extraction.  [ingest] is the outcome of
    [extractFrames(data, 5, true)]: the number of frames and the audio
    path. *)
Definition extractVideo (data : string) (metadata : Metadata)
    (ingest : Exc (nat * option string))
    (framesRaced : Exc DraftEvent) (transcriptionRaced : Exc string)
    (descriptionTimedOut : bool) : Exc DraftEvent :=
  tryCatch
    (await videoResult := ingest in
     let frameAnalyses := frameTrack (fst videoResult) framesRaced in
     let transcription :=
       transcriptionTrack (snd videoResult) transcriptionRaced in
     let descriptionAnalysis :=
       descriptionTrack metadata descriptionTimedOut in
     await merged :=
       stage3 metadata transcription frameAnalyses descriptionAnalysis data in
     Ok (snd merged))
    (fun _ =>
       extractFromText
         (orEmpty (metaTitle metadata) +:+ " " +:+
          orEmpty (metaDescription metadata) +:+ " " +:+ data)).

End Route.

(** Step 3 of the route, the caller's placeholder: [extracted.date &&
    extracted.date.trim() !== '' ? extracted.date : today]. *)
Definition eventDate (today : string) (extracted : DraftEvent) : string :=
  if truthy (date extracted) &&
     negb (String.eqb (trim (orEmpty (date extracted))) "")
  then orEmpty (date extracted) else today.

End ExtractRoute.

(** ** Promises *)

Module Promise.

(** An awaited promise: [None] never settles, [Some (Ok v)] fulfils,
    [Some (Throw e)] rejects. *)
Definition Task (A : Type) : Type := option (Exc A).

Definition bindT {A B} (m : Task A) (k : A -> Task B) : Task B :=
  match m with
  | None => None
  | Some (Throw e) => Some (Throw e)
  | Some (Ok v) => k v
  end.

Definition tryCatchT {A} (body : Task A) (handler : string -> Task A)
    : Task A :=
  match body with
  | Some (Throw e) => handler e
  | _ => body
  end.

Section All.

Context {A : Type}.

(** How the promise at each index settles. *)
Variable outcome : nat -> Exc A.

(** [Promise.all] keeps an array of values, one slot per input promise;
    the promises settle in some order, each fulfilled value is stored at its
    own index, the first rejection rejects the whole. *)
Fixpoint settle (order : list nat) (values : list (option A))
    : Exc (list (option A)) :=
  match order with
  | [] => Ok values
  | i :: rest =>
      match outcome i with
      | Ok v => settle rest (<[i := Some v]> values)
      | Throw e => Throw e
      end
  end.

(** [await Promise.all(promises)] for [n] promises that settle in the given
    order; it stays pending while a slot is unfilled. *)
Definition all (n : nat) (order : list nat) : Task (list A) :=
  match settle order (replicate n None) with
  | Throw e => Some (Throw e)
  | Ok values =>
      match mapM id values with
      | Some vs => Some (Ok vs)
      | None => None
      end
  end.

End All.

End Promise.

(** ** Speech transcriber: [AudioTranscriber] *)

Module AudioTranscriber.
Import Promise.

(** The world one [transcribe(audioPath)] call runs in. *)
Record Env : Type := {
  (** [this.speechClient] is not [null] *)
  speechClient : bool;
  (** [fs.statSync(audioPath).size], in bytes *)
  statSize : Exc Z;
  (** [fs.readFileSync(audioPath)] *)
  readAudio : Exc unit;
  (** [speechClient.recognize(request)] on the whole file: per result,
      [alternatives?.[0]?.transcript || ''] *)
  recognize : Exc (list string);
  (** [ffprobe(audioPath)]: [metadata.format.duration || 0] *)
  ffprobe : Exc Q;
  (** the ffmpeg run that cuts one chunk: [seekInput(start)],
      [duration(length)] *)
  extractChunk : Z -> Z -> Exc unit;
  (** reading chunk [i] and [speechClient.recognize] on it *)
  recognizeChunk : nat -> Exc (list string)
}.

Definition chunkDuration : Z := 30.

(** [Math.ceil(duration / chunkDuration)] *)
Definition numChunks (duration : Q) : nat :=
  Z.to_nat (Qceiling (duration / inject_Z chunkDuration)).

(** [startTime = i * chunkDuration] *)
Definition chunkStart (i : nat) : Z := Z.of_nat i * chunkDuration.

(** One entry of [transcriptionPromises]: a failed chunk is [''] . *)
Definition transcribeChunk (env : Env) (i : nat) : Exc string :=
  tryCatch
    (await results := recognizeChunk env i in Ok (join " " results))
    (fun _ => Ok "").

(** [transcribeInChunks]; the two orders are the orders in which the chunk
    extractions and the chunk transcriptions complete. *)
Definition transcribeInChunks (env : Env)
    (extractionOrder transcriptionOrder : list nat) : Task string :=
  if negb (speechClient env) then Some (Throw "Speech client not initialized")
  else
    match ffprobe env with
    | Throw e => Some (Throw e)
    | Ok duration =>
        let n := numChunks duration in
        bindT
          (all (fun i => extractChunk env (chunkStart i) chunkDuration) n
             extractionOrder)
          (fun _ =>
             bindT (all (transcribeChunk env) n transcriptionOrder)
               (fun chunkTranscriptions =>
                  Some (Ok (join " " (filterBoolean chunkTranscriptions)))))
    end.

(** [maxSizeMB = 10]: [size / (1024 * 1024) <= 10]. *)
Definition maxSizeBytes : Z := 10 * (1024 * 1024).

Definition transcribeWithGoogleSpeech (env : Env)
    (extractionOrder transcriptionOrder : list nat) : Task string :=
  if negb (speechClient env) then Some (Throw "Speech client not initialized")
  else
    match statSize env with
    | Throw e => Some (Throw e)
    | Ok size =>
        if size <=? maxSizeBytes then
          match readAudio env with
          | Throw e => Some (Throw e)
          | Ok _ =>
              match recognize env with
              | Ok results =>
                  match results with
                  | [] => Some (Ok "")
                  | _ => Some (Ok (join " " results))
                  end
              | Throw _ =>
                  transcribeInChunks env extractionOrder transcriptionOrder
              end
          end
        else transcribeInChunks env extractionOrder transcriptionOrder
    end.

(** [transcribeWithGemini]: not implemented, returns the empty string. *)
Definition transcribeWithGemini : Task string := Some (Ok "").

Definition transcribe (env : Env)
    (extractionOrder transcriptionOrder : list nat) : Task string :=
  tryCatchT
    (if speechClient env
     then transcribeWithGoogleSpeech env extractionOrder transcriptionOrder
     else transcribeWithGemini)
    (fun message => Some (Throw ("Failed to transcribe audio: " +:+ message))).

End AudioTranscriber.

(** ** Code decoder: [QRCodeExtractor] *)

Module QRCodeExtractor.
Import Str.

(** [\w] *)
Definition isWordChar (c : ascii) : bool :=
  let n := code c in
  (((48 <=? n) && (n <=? 57)) || ((65 <=? n) && (n <=? 90)) ||
   ((97 <=? n) && (n <=? 122)) || (n =? 95))%nat.

Fixpoint dropWord (l : list ascii) : list ascii :=
  match l with
  | c :: rest => if isWordChar c then dropWord rest else l
  | [] => []
  end.

Fixpoint stripPrefixChars (prefix l : list ascii) : option (list ascii) :=
  match prefix, l with
  | [], _ => Some l
  | x :: prefix', c :: rest =>
      if Ascii.eqb x c then stripPrefixChars prefix' rest else None
  | _ :: _, [] => None
  end.

(** [imageBase64.replace(/^data:image\/\w+;base64,/, '')] *)
Definition stripDataUri (imageBase64 : string) : string :=
  match stripPrefixChars (chars "data:image/") (chars imageBase64) with
  | Some (c :: rest) =>
      if isWordChar c then
        match stripPrefixChars (chars ";base64,") (dropWord rest) with
        | Some payload => ofChars payload
        | None => imageBase64
        end
      else imageBase64
  | _ => imageBase64
  end.

(** [inversionAttempts] *)
Inductive Inversion : Type :=
| dontInvert
| attemptBoth.

(** A rectangle [{ x, y, w, h }]. *)
Record Region : Type := { x : Z; y : Z; w : Z; h : Z }.

Section Decoder.

(** The canvas, jsQR and URL libraries. *)
Variables Image ImageData : Type.
(** [loadImage(Buffer.from(base64Data, 'base64'))] *)
Variable loadImage : string -> Exc Image.
Variable width height : Image -> Z.
(** a canvas of the given size, the image drawn scaled onto it, read back *)
Variable drawScaled : Image -> Z -> Z -> Exc ImageData.
(** a canvas of the region's size, the region of the image drawn onto it,
    read back *)
Variable drawRegion : Image -> Region -> Exc ImageData.
(** the pixel loops of the grey-scale and contrast variants *)
Variable toGrayscale toHighContrast : ImageData -> Exc ImageData.
(** [jsQR(data, width, height, { inversionAttempts })]: [code.data], or
    [None] for [null] *)
Variable jsQR : ImageData -> Inversion -> Exc (option string).
(** [new URL(url).protocol] *)
Variable urlProtocol : string -> Exc string.

Definition isValidUrl (url : string) : bool :=
  match urlProtocol url with
  | Ok protocol => String.eqb protocol "http:" || String.eqb protocol "https:"
  | Throw _ => false
  end.

Definition validated (data : string) : option string :=
  let url := trim data in
  if isValidUrl url then Some url else None.

Definition decodeQRCode (imageData : ImageData) : Exc (option string) :=
  await code := jsQR imageData dontInvert in
  if negb (truthy code) then
    await codeInverted := jsQR imageData attemptBoth in
    if truthy codeInverted then Ok (validated (orEmpty codeInverted))
    else Ok None
  else Ok (validated (orEmpty code)).

Definition tryExtractOriginal (image : Image) : Exc (option string) :=
  await imageData := drawScaled image (width image) (height image) in
  decodeQRCode imageData.

(** [Math.round] *)
Definition round (q : Q) : Z := Qfloor (q + (1 # 2))%Q.

Definition tryExtractResized (image : Image) (maxDimension : Z)
    : Exc (option string) :=
  let width0 := width image in
  let height0 := height image in
  let '(width1, height1) :=
    if height0 <? width0 then
      if maxDimension <? width0 then
        (maxDimension,
         round ((inject_Z height0 / inject_Z width0) *
                inject_Z maxDimension)%Q)
      else (width0, height0)
    else
      if maxDimension <? height0 then
        (round ((inject_Z width0 / inject_Z height0) *
                inject_Z maxDimension)%Q,
         maxDimension)
      else (width0, height0) in
  await imageData := drawScaled image width1 height1 in
  decodeQRCode imageData.

Definition tryExtractGrayscale (image : Image) : Exc (option string) :=
  await imageData := drawScaled image (width image) (height image) in
  await gray := toGrayscale imageData in
  decodeQRCode gray.

Definition tryExtractHighContrast (image : Image) : Exc (option string) :=
  await imageData := drawScaled image (width image) (height image) in
  await enhanced := toHighContrast imageData in
  decodeQRCode enhanced.

(** [Math.floor(n * 0.5)] and [Math.floor(n * 0.25)] on a pixel count. *)
Definition half (n : Z) : Z := n / 2.
Definition quarter (n : Z) : Z := n / 4.

Definition regions (image : Image) : list Region :=
  let iw := width image in
  let ih := height image in
  [ {| x := 0; y := 0; w := iw; h := ih |};
    {| x := 0; y := 0; w := half iw; h := half ih |};
    {| x := half iw; y := 0; w := half iw; h := half ih |};
    {| x := 0; y := half ih; w := half iw; h := half ih |};
    {| x := half iw; y := half ih; w := half iw; h := half ih |};
    {| x := quarter iw; y := quarter ih; w := half iw; h := half ih |} ].

(** [for (const region of regions) { ...; if (result) return result; }
    return null] *)
Fixpoint firstRegion (image : Image) (rs : list Region)
    : Exc (option string) :=
  match rs with
  | [] => Ok None
  | region :: rest =>
      await imageData := drawRegion image region in
      await result := decodeQRCode imageData in
      if truthy result then Ok result else firstRegion image rest
  end.

Definition tryExtractFromRegions (image : Image) : Exc (option string) :=
  firstRegion image (regions image).

(** The strategy chain, in its fixed order. *)
Definition strategies (image : Image) : list (Exc (option string)) :=
  [ tryExtractOriginal image;
    tryExtractResized image 1000;
    tryExtractResized image 2000;
    tryExtractGrayscale image;
    tryExtractHighContrast image;
    tryExtractFromRegions image ].

(** One turn of the loop: [try { const result = await strategies[i]();
    if (result) return result; } catch { }].  [Ok (Some r)] is the
    [return r]. *)
Definition attempt (strategy : Exc (option string))
    : Exc (option (option string)) :=
  tryCatch
    (await result := strategy in
     Ok (if truthy result then Some result else None))
    (fun _ => Ok None).

Fixpoint tryStrategies (chain : list (Exc (option string)))
    : Exc (option string) :=
  match chain with
  | [] => Ok None
  | strategy :: rest =>
      await returned := attempt strategy in
      match returned with
      | Some result => Ok result
      | None => tryStrategies rest
      end
  end.

Definition extractFromBase64 (imageBase64 : string) : Exc (option string) :=
  tryCatch
    (let base64Data := stripDataUri imageBase64 in
     if String.eqb base64Data "" then Ok None
     else
       await image := loadImage base64Data in
       tryStrategies (strategies image))
    (fun _ => Ok None).

End Decoder.

End QRCodeExtractor.

(** ** Media ingestor: [VideoFrameExtractor.extractFrames] *)

Module VideoFrameExtractor.
Import Str.

(** The options of one ffmpeg audio run. *)
Record AudioCommand : Type := {
  audioCodec : string;
  audioFrequency : Z;
  audioChannels : Z;
  (** [.duration(seconds)], when the chain calls it *)
  durationLimit : option Z;
  noVideo : bool
}.

(** The ffmpeg chain of [extractAudioFromUrl(videoUrl, maxDurationSeconds)]. *)
Definition audioFromUrl (maxDurationSeconds : Z) : AudioCommand :=
  {| audioCodec := "pcm_s16le"; audioFrequency := 16000; audioChannels := 1;
     durationLimit := Some maxDurationSeconds; noVideo := true |}.

(** The ffmpeg chain of [extractAudio(videoPath)]. *)
Definition audioFromFile : AudioCommand :=
  {| audioCodec := "pcm_s16le"; audioFrequency := 16000; audioChannels := 1;
     durationLimit := None; noVideo := true |}.

Definition ytDlpSupportedPlatforms : list string :=
  [ "youtube.com"; "youtu.be"; "tiktok.com"; "instagram.com"; "twitter.com";
    "x.com"; "facebook.com"; "vimeo.com"; "dailymotion.com" ].

Inductive Strategy : Type :=
| DownloadFirst   (** [extractFromDownloadedVideo], TikTok *)
| Stream          (** [extractFromStream] *)
| Download.       (** the rest of [extractFrames] *)

Definition strategyFor (videoUrl : string) : Strategy :=
  if includes videoUrl "tiktok.com" then DownloadFirst
  else if existsb (includes videoUrl) ytDlpSupportedPlatforms then Stream
  else Download.

(** [getPlatformName] *)
Definition getPlatformName (videoUrl : string) : string :=
  if includes videoUrl "youtube.com" || includes videoUrl "youtu.be"
  then "YouTube"
  else if includes videoUrl "tiktok.com" then "TikTok"
  else if includes videoUrl "instagram.com" then "Instagram"
  else if includes videoUrl "twitter.com" || includes videoUrl "x.com"
  then "Twitter/X"
  else if includes videoUrl "facebook.com" then "Facebook"
  else if includes videoUrl "vimeo.com" then "Vimeo"
  else if includes videoUrl "dailymotion.com" then "Dailymotion"
  else "Video Platform".

(** The temp directory, the calls that release a file, and the ffmpeg audio
    runs made so far. *)
Record World : Type := {
  disk : gset string;
  cleanupCalls : list string;
  audioRuns : list AudioCommand
}.

(** A computation that reads and writes the world and may throw. *)
Definition M (A : Type) : Type := World -> Exc A * World.

Definition ret {A} (v : A) : M A := fun world => (Ok v, world).
Definition throw {A} (message : string) : M A :=
  fun world => (Throw message, world).
Definition bindM {A B} (m : M A) (k : A -> M B) : M B :=
  fun world =>
    match m world with
    | (Ok v, world') => k v world'
    | (Throw e, world') => (Throw e, world')
    end.
Definition tryCatchM {A} (body : M A) (handler : string -> M A) : M A :=
  fun world =>
    match body world with
    | (Ok v, world') => (Ok v, world')
    | (Throw e, world') => handler e world'
    end.

(** An external call that writes the file it returns, when it succeeds. *)
Definition writing (outcome : Exc string) : M string :=
  fun world =>
    match outcome with
    | Ok path =>
        (Ok path, {| disk := {[path]} ∪ disk world;
                     cleanupCalls := cleanupCalls world;
                     audioRuns := audioRuns world |})
    | Throw e => (Throw e, world)
    end.

(** Starting an ffmpeg audio run. *)
Definition starting (command : AudioCommand) : M unit :=
  fun world =>
    (Ok tt, {| disk := disk world; cleanupCalls := cleanupCalls world;
               audioRuns := audioRuns world ++ [command] |}).

Definition lift {A} (outcome : Exc A) : M A := fun world => (outcome, world).

(** [cleanupFile(filePath)]: [if (fs.existsSync(filePath)) await
    unlink(filePath)]. *)
Definition cleanupFile (filePath : string) : M unit :=
  fun world =>
    (Ok tt, {| disk := disk world ∖ {[filePath]};
               cleanupCalls := cleanupCalls world ++ [filePath];
               audioRuns := audioRuns world |}).

(** [cleanupAudio(audioPath)] *)
Definition cleanupAudio (audioPath : string) : M unit := cleanupFile audioPath.

(** What the ingestor runs against. *)
Record Env : Type := {
  (** [downloadVideo] / [downloadVideoWithYtDlp]: the file written *)
  download : Exc string;
  (** [getVideoDuration] / [getVideoDurationFromUrl] *)
  probe : Exc Q;
  (** [yt-dlp -g]: the stream URL *)
  streamUrl : Exc string;
  (** one frame extraction, its own temp file released inside, raced
      against its timer where there is one: the data URI, [null], or a
      throw *)
  frameAt : Z -> Exc (option string);
  (** the whole stream frame batch lost against its 30 s timer *)
  batchTimedOut : bool;
  (** the ffmpeg audio run: the file written *)
  runAudio : AudioCommand -> Exc string
}.

Record VideoFrame : Type := { timestamp : Z; base64 : string }.

Record VideoExtractionResult : Type := {
  frames : list VideoFrame;
  audioPath : option string;
  duration : Q
}.

(** [calculateSmartTimestamps]; the fuel of its first loop never runs out
    (lemma [calculateSmartTimestamps_total]). *)
Definition timestampsFor (d : Q) (frameCount : Z) : list Z :=
  default [] (FrameSampler.calculateSmartTimestamps d frameCount).

(** The frames that were extracted: a failed or empty extraction is
    dropped. *)
Definition collectFrames (env : Env) (timestamps : list Z) : list VideoFrame :=
  omap (fun t =>
          match frameAt env t with
          | Ok (Some data) =>
              if truthy (Some data)
              then Some {| timestamp := t; base64 := data |} else None
          | _ => None
          end) timestamps.

(** [if (extractAudio) { try { audioPath = await ... } catch { } }] *)
Definition tryAudio (env : Env) (extractAudio : bool) (command : AudioCommand)
    : M (option string) :=
  if extractAudio then
    tryCatchM
      (bindM (starting command) (fun _ =>
       bindM (writing (runAudio env command)) (fun path => ret (Some path))))
      (fun _ => ret None)
  else ret None.

Definition noFrames : string := "No frames could be extracted from video".

Definition finish (fs : list VideoFrame) (audio : option string) (d : Q)
    : M VideoExtractionResult :=
  match fs with
  | [] => throw noFrames
  | _ => ret {| frames := fs; audioPath := audio; duration := d |}
  end.

Definition extractFromStream (env : Env) (videoUrl : string)
    (frameCount : Z) (extractAudio : bool) : M VideoExtractionResult :=
  tryCatchM
    (bindM (lift (probe env)) (fun d =>
     let timestamps := timestampsFor d frameCount in
     bindM (tryCatchM (lift (streamUrl env))
              (fun e => throw ("Failed to get stream URL: " +:+ e)))
       (fun _ =>
     let fs := if batchTimedOut env then []
               else collectFrames env timestamps in
     bindM (tryAudio env extractAudio (audioFromUrl 120)) (fun audio =>
     finish fs audio d))))
    (fun e =>
       throw ("Failed to extract from " +:+ getPlatformName videoUrl +:+
              ": " +:+ e)).

Definition extractFromDownloadedVideo (env : Env) (frameCount : Z)
    (extractAudio : bool) : M VideoExtractionResult :=
  bindM (writing (download env)) (fun videoPath =>
  tryCatchM
    (bindM (lift (probe env)) (fun d =>
     let timestamps := timestampsFor d frameCount in
     let fs := collectFrames env timestamps in
     bindM (tryAudio env extractAudio audioFromFile) (fun audio =>
     bindM (cleanupFile videoPath) (fun _ =>
     finish fs audio d))))
    (fun e => bindM (cleanupFile videoPath) (fun _ => throw e))).

Definition extractFrames (env : Env) (videoUrl : string) (frameCount : Z)
    (extractAudio : bool) : M VideoExtractionResult :=
  tryCatchM
    (match strategyFor videoUrl with
     | DownloadFirst => extractFromDownloadedVideo env frameCount extractAudio
     | Stream => extractFromStream env videoUrl frameCount extractAudio
     | Download =>
         bindM (writing (download env)) (fun videoPath =>
         bindM (lift (probe env)) (fun d =>
         if FrameSampler.Qltb 600 d then
           bindM (cleanupFile videoPath) (fun _ =>
           throw "Video too long. Maximum 10 minutes supported.")
         else
           let timestamps := timestampsFor d frameCount in
           let fs := collectFrames env timestamps in
           bindM (tryAudio env extractAudio audioFromFile) (fun audio =>
           bindM (cleanupFile videoPath) (fun _ =>
           finish fs audio d))))
     end)
    (fun e => throw ("Failed to extract video frames: " +:+ e)).

(** How the transcription of stage 2 went against its 20 s timer. *)
Inductive TranscriptionRun : Type :=
| Settled (outcome : Exc string)
    (** [transcribe] fulfilled or rejected before the timer *)
| TimedOut (later : option (Exc string)).
    (** the timer won; [transcribe] settles later, or never *)

(** What the race of stage 2 settles with. *)
Definition raced (run : TranscriptionRun) : Exc string :=
  match run with
  | Settled outcome => outcome
  | TimedOut _ => Throw "Transcription timeout"
  end.

(** The transcription track of the route, with its clean-up calls. *)
Definition transcriptionCleanup (audio : option string)
    (run : TranscriptionRun) : M string :=
  match audio with
  | Some path =>
      if truthy audio then
        match run with
        | Settled (Ok text) =>
            bindM (cleanupAudio path) (fun _ => ret text)
        | Settled (Throw _) =>
            bindM (cleanupAudio path) (fun _ => ret "")
        | TimedOut later =>
            bindM (cleanupAudio path) (fun _ =>
            match later with
            | Some (Ok _) => bindM (cleanupAudio path) (fun _ => ret "")
            | _ => ret ""
            end)
        end
      else ret ""
  | None => ret ""
  end.

(** The resources side of the video branch of the route: ingest, then the
    transcription track; when the ingestor throws, the [catch] falls back
    to the metadata text and touches no file.  The result is the
    transcript that stage 3 gets, or [None] on the fall-back. *)
Definition videoRequest (env : Env) (videoUrl : string)
    (run : TranscriptionRun) : M (option string) :=
  tryCatchM
    (bindM (extractFrames env videoUrl 5 true) (fun videoResult =>
     bindM (transcriptionCleanup (audioPath videoResult) run) (fun text =>
     ret (Some text))))
    (fun _ => ret None).

Definition emptyWorld : World :=
  {| disk := ∅; cleanupCalls := []; audioRuns := [] |}.

End VideoFrameExtractor.

(** ** Place resolution: [PlacesResolver] *)

Module PlacesResolver.
Import Str.

Record Location : Type := { lat : Q; lng : Q }.

Record PlaceResult : Type := {
  placeId : string;
  formattedAddress : string;
  location : Location;
  name : option string
}.

(** One entry of [response.data.candidates]. *)
Record Candidate : Type := {
  place_id : string;
  formatted_address : option string;
  geometry : Location;
  candidateName : option string
}.

(** The resolver object: its cache, and the [findPlaceFromText] requests it
    has sent, as (input, region). *)
Record Resolver : Type := {
  cache : gmap string (PlaceResult * Z);
  requests : list (string * string)
}.

(** [cacheTTL = 24 * 60 * 60 * 1000] *)
Definition cacheTTL : Z := 24 * 60 * 60 * 1000.

Section Resolve.

(** [client.findPlaceFromText]: [response.data.candidates], or a throw. *)
Variable findPlaceFromText : string -> string -> Exc (option (list Candidate)).

(** [resolve(query, regionCode)]; [now] is [Date.now()] at the cache check,
    [later] is [Date.now()] when the result is stored. *)
Definition resolve (now later : Z) (query regionCode : string)
    (self : Resolver) : Exc (option PlaceResult) * Resolver :=
  let fresh :=
    match cache self !! query with
    | Some (result, timestamp) =>
        if now - timestamp <? cacheTTL then Some result else None
    | None => None
    end in
  match fresh with
  | Some result => (Ok (Some result), self)
  | None =>
      let asked :=
        {| cache := cache self;
           requests := requests self ++ [(query, regionCode)] |} in
      match findPlaceFromText query regionCode with
      | Ok (Some (candidate :: _)) =>
          let result :=
            {| placeId := place_id candidate;
               formattedAddress :=
                 if truthy (formatted_address candidate)
                 then orEmpty (formatted_address candidate) else query;
               location := geometry candidate;
               name := candidateName candidate |} in
          (Ok (Some result),
           {| cache := <[query := (result, later)]> (cache asked);
              requests := requests asked |})
      | Ok _ => (Ok None, asked)
      | Throw _ => (Ok None, asked)
      end
  end.

End Resolve.

(** [s.toLowerCase()] on Latin-1 code units. *)
Definition lowerChar (c : ascii) : ascii :=
  let n := code c in
  if (((65 <=? n) && (n <=? 90)) ||
      ((192 <=? n) && (n <=? 222) && negb (n =? 215)))%nat
  then ascii_of_nat (n + 32) else c.

Definition toLowerCase (s : string) : string :=
  ofChars (map lowerChar (chars s)).

(** [typeMap], in the order of [Object.entries]. *)
Definition typeMap : list (string * string) :=
  [ ("movie theater", "movie_theater"); ("movie", "movie_theater");
    ("cinema", "movie_theater"); ("movie trailer", "movie_theater");
    ("film", "movie_theater"); ("restaurant", "restaurant");
    ("concert hall", "establishment"); ("concert", "establishment");
    ("theater", "establishment"); ("stadium", "stadium");
    ("sports", "stadium"); ("conference center", "establishment");
    ("conference", "establishment"); ("workshop space", "establishment");
    ("workshop", "establishment"); ("festival", "establishment");
    ("bar", "bar"); ("cafe", "cafe"); ("coffee shop", "cafe");
    ("hotel", "lodging"); ("museum", "museum"); ("park", "park");
    ("gym", "gym"); ("fitness", "gym") ].

Fixpoint firstEntry (lowerType : string) (entries : list (string * string))
    : option string :=
  match entries with
  | [] => None
  | (key, value) :: rest =>
      if includes lowerType key then Some value
      else firstEntry lowerType rest
  end.

Definition getPlaceType (venueType : string) : string :=
  match firstEntry (toLowerCase venueType) typeMap with
  | Some value => value
  | None => "establishment"
  end.

End PlacesResolver.

(** ** The route's venue inference (routes/extract.ts, step 2) *)

Module RouteVenue.
Import Str Event.

(** [venueTypeToSearch] when no explicit location was extracted:
    [extracted.venueType?.trim()], or a venue type inferred from the event
    type. *)
Definition venueTypeToSearch (extracted : DraftEvent) : option string :=
  let fromVenue := option_map trim (venueType extracted) in
  if negb (truthy fromVenue) && truthy (eventType extracted) then
    let eventTypeLower :=
      PlacesResolver.toLowerCase (orEmpty (eventType extracted)) in
    if includes eventTypeLower "movie" || includes eventTypeLower "film" ||
       includes eventTypeLower "cinema"
    then Some "movie theater"
    else if includes eventTypeLower "concert" ||
            includes eventTypeLower "music"
    then Some "concert hall"
    else if includes eventTypeLower "sport" then Some "stadium"
    else if includes eventTypeLower "restaurant" ||
            includes eventTypeLower "dining"
    then Some "restaurant"
    else fromVenue
  else fromVenue.

End RouteVenue.

(** ** Code decoder: canvas sizes and file input *)

Module QRCodeInput.
Import Str QRCodeExtractor.

(** The canvas size computed by [tryExtractResized]. *)
Definition resizedSize (width0 height0 maxDimension : Z) : Z * Z :=
  if height0 <? width0 then
    if maxDimension <? width0 then
      (maxDimension,
       round ((inject_Z height0 / inject_Z width0) *
              inject_Z maxDimension)%Q)
    else (width0, height0)
  else
    if maxDimension <? height0 then
      (round ((inject_Z width0 / inject_Z height0) *
              inject_Z maxDimension)%Q,
       maxDimension)
    else (width0, height0).

Section File.

Variables Image ImageData : Type.
Variable loadImage : string -> Exc Image.
Variable width height : Image -> Z.
Variable drawScaled : Image -> Z -> Z -> Exc ImageData.
Variable drawRegion : Image -> Region -> Exc ImageData.
Variable toGrayscale toHighContrast : ImageData -> Exc ImageData.
Variable jsQR : ImageData -> Inversion -> Exc (option string).
Variable urlProtocol : string -> Exc string.
(** [(await readFile(imagePath)).toString('base64')] *)
Variable readFileBase64 : string -> Exc string.

Definition extractFromFile (imagePath : string) : Exc (option string) :=
  tryCatch
    (await base64 := readFileBase64 imagePath in
     let dataUri := "data:image/jpeg;base64," +:+ base64 in
     extractFromBase64 Image ImageData loadImage width height drawScaled
       drawRegion toGrayscale toHighContrast jsQR urlProtocol dataUri)
    (fun _ => Ok None).

End File.

End QRCodeInput.

(** ** Combining the per-frame analyses *)

Module FrameAnalyses.
Import Js Str.

(** One frame's analysis as [combineFrameAnalyses] reads it: the event
    fields of the interpreter's JSON answer, [text], [rawText], and
    [hasEventInfo], which is a boolean or [undefined]. *)
Record Analysis : Type := {
  event : Event.DraftEvent;
  text : option string;
  rawText : option string;
  hasEventInfo : option bool
}.

Definition noEvent : Event.DraftEvent :=
  {| Event.title := None; Event.description := None; Event.date := None;
     Event.time := None; Event.endTime := None; Event.location := None;
     Event.eventType := None; Event.venueType := None |}.

Definition withTitle (v : option string) (e : Event.DraftEvent)
    : Event.DraftEvent :=
  {| Event.title := v; Event.description := Event.description e;
     Event.date := Event.date e; Event.time := Event.time e;
     Event.endTime := Event.endTime e; Event.location := Event.location e;
     Event.eventType := Event.eventType e;
     Event.venueType := Event.venueType e |}.

(** [a.rawText || a.text || ''] *)
Definition rawOrText (a : Analysis) : string :=
  if truthy (rawText a) then orEmpty (rawText a)
  else if truthy (text a) then orEmpty (text a)
  else "".

(** [analyses.map(a => a.rawText || a.text || '').join(' ')] *)
Definition allText (analyses : list Analysis) : string :=
  join " " (map rawOrText analyses).

(** [a.hasEventInfo !== false && a.hasEventInfo !== undefined] *)
Definition isValid (a : Analysis) : bool :=
  match hasEventInfo a with
  | Some true => true
  | _ => false
  end.

Definition validAnalyses (analyses : list Analysis) : list Analysis :=
  List.filter isValid analyses.

(** The description made from text: at most 25 words of it. *)
Definition limitedText (allText : string) : string :=
  let ws := words (trim allText) in
  if (length ws <=? 25)%nat then join " " ws
  else join " " (take 25 ws) +:+ "...".

(** [if (analysis.f && !combined.f) combined.f = analysis.f] *)
Definition keepFirst (combined analysis : option string) : option string :=
  if truthy analysis && negb (truthy combined) then analysis else combined.

(** One turn of the loop over the valid analyses. *)
Definition mergeAnalysis (combined : Event.DraftEvent) (analysis : Analysis)
    : Event.DraftEvent :=
  let a := event analysis in
  {| Event.title := keepFirst (Event.title combined) (Event.title a);
     Event.date := keepFirst (Event.date combined) (Event.date a);
     Event.time := keepFirst (Event.time combined) (Event.time a);
     Event.endTime := keepFirst (Event.endTime combined) (Event.endTime a);
     Event.location := keepFirst (Event.location combined) (Event.location a);
     Event.description :=
       if truthy (Event.description a) &&
          negb (truthy (Event.description combined))
       then GeminiExtractor.limitDescription (Event.description a)
       else Event.description combined;
     Event.eventType := Event.eventType combined;
     Event.venueType := Event.venueType combined |}.

Section Combine.

(** The four title patterns, each as the function from the text to the
    first capture group of its first match. *)
Variable titlePatterns : list (string -> option string).

(** The loop over [titlePatterns]: the first capture that is non-empty and
    between 6 and 99 characters long, trimmed. *)
Fixpoint titleFromText (patterns : list (string -> option string))
    (allText : string) : option string :=
  match patterns with
  | [] => None
  | pattern :: rest =>
      match pattern allText with
      | Some capture =>
          if truthy (Some capture) && (5 <? String.length capture)%nat &&
             (String.length capture <? 100)%nat
          then Some (trim capture)
          else titleFromText rest allText
      | None => titleFromText rest allText
      end
  end.

Definition fromText (combined : Event.DraftEvent) (allText : string)
    : Event.DraftEvent :=
  if truthy (Some allText) &&
     (negb (truthy (Event.title combined)) ||
      negb (truthy (Event.date combined)))
  then
    let titled :=
      if negb (truthy (Event.title combined)) then
        match titleFromText titlePatterns allText with
        | Some title => withTitle (Some title) combined
        | None => combined
        end
      else combined in
    if negb (truthy (Event.description titled))
    then Event.setDescription (Some (limitedText allText)) titled
    else titled
  else combined.

Definition combineFrameAnalyses (analyses : list Analysis)
    : Exc Event.DraftEvent :=
  let valid := validAnalyses analyses in
  if (length valid =? 0)%nat then
    let text := allText analyses in
    if truthy (Some (trim text)) then
      Ok (Event.setDescription (Some (limitedText text)) noEvent)
    else Throw "No event information found in video frames"
  else
    Ok (fromText (fold_left mergeAnalysis valid noEvent) (allText valid)).

(** [extractFromVideoFrames] once every frame has its analysis. *)
Variable localDate : Z -> Z -> Z -> option (Z * Z * Z).
Variable parseDate : string -> option (Z * Z * Z).
(** The two title patterns of the partial result, as one function from the
    text to the first capture group of the first pattern that matches. *)
Variable titleMatch : string -> option string.

Definition partialResult (analyses : list Analysis)
    (combined : Event.DraftEvent) : Event.DraftEvent :=
  let extractedTitle :=
    if negb (truthy (Event.title combined)) then
      match titleMatch (allText analyses) with
      | Some capture => Some (trim capture)
      | None => Event.title combined
      end
    else Event.title combined in
  {| Event.title :=
       if truthy extractedTitle then extractedTitle
       else Some "Untitled Event";
     Event.description := Event.description combined;
     Event.date :=
       if truthy (Event.date combined) then Event.date combined else Some "";
     Event.time := Event.time combined;
     Event.endTime := Event.endTime combined;
     Event.location := Event.location combined;
     Event.eventType := None;
     Event.venueType := None |}.

Definition extractFromAnalyses (analyses : list Analysis)
    : Exc Event.DraftEvent :=
  tryCatch
    (await combined := combineFrameAnalyses analyses in
     tryCatch
       (GeminiExtractor.validateAndNormalize localDate parseDate combined)
       (fun _ => Ok (partialResult analyses combined)))
    (fun message =>
       Throw ("Failed to extract from video frames: " +:+ message)).

End Combine.

End FrameAnalyses.

(** ** The route's test for video links *)

Module RouteVideo.
Import Str.

Definition videoExtensions : list string :=
  [ ".mp4"; ".webm"; ".mov"; ".avi"; ".mkv"; ".m4v" ].

Definition videoDomains : list string :=
  [ "youtube.com"; "youtu.be"; "vimeo.com"; "dailymotion.com"; "tiktok.com" ].

Definition isVideoUrl (url : string) : bool :=
  let lowerUrl := PlacesResolver.toLowerCase url in
  if existsb (includes lowerUrl) videoExtensions then true
  else if existsb (includes lowerUrl) videoDomains then true
  else false.

End RouteVideo.

(** ** The evenly spaced sampler: [VideoFrameExtractor.calculateTimestamps] *)

Module LegacySampler.
Import FrameSampler.

(** [for (let i = 1; i < frameCount; i++) { ... }], the indices given as a
    list. *)
Fixpoint spacedLoop (indices : list Z) (duration : Q) (frameCount : Z)
    (timestamps : list Z) : list Z :=
  match indices with
  | [] => timestamps
  | i :: rest =>
      let percentage := (inject_Z i / inject_Z frameCount)%Q in
      let timestamp :=
        if Qle_bool 0.9 percentage then (duration * 0.9)%Q
        else (duration * percentage)%Q in
      spacedLoop rest duration frameCount (timestamps ++ [Qfloor timestamp])
  end.

Definition calculateTimestamps (duration : Q) (frameCount : Z) : list Z :=
  let timestamps := [0] in
  let timestamps :=
    spacedLoop (seqZ 1 (frameCount - 1)) duration frameCount timestamps in
  sortAscending (setOf [] timestamps).

End LegacySampler.

(** ** Suggested tasks: [TasksService.generateSuggestedTasks] *)

Module TasksService.
Import Js Str.

Inductive Priority : Type := high | medium | low.

Record SuggestedTask : Type := {
  title : string;
  description : option string;
  dueDate : option string;
  priority : option Priority
}.

(** The fields of a canonical event the suggestions read; a location has
    an optional name and an address. *)
Record CanonicalEvent : Type := {
  eventTitle : string;
  eventDescription : option string;
  startTime : string;
  location : option (option string * string)
}.

Section Suggestions.

(** [oneDayBefore.toISOString().split('T')[0]] for
    [new Date(event.startTime)] moved back by one day; [toISOString] throws
    a RangeError on an invalid date. *)
Variable oneDayBeforeIso : string -> Exc string.

(** [if (cond) suggestions.push({ ..., dueDate: ... })] *)
Definition pushIf (cond : bool) (event : CanonicalEvent)
    (task : string -> SuggestedTask) (suggestions : list SuggestedTask)
    : Exc (list SuggestedTask) :=
  if cond then
    await due := oneDayBeforeIso (startTime event) in
    Ok (suggestions ++ [task due])
  else Ok suggestions.

Definition generateSuggestedTasks (event : CanonicalEvent)
    : Exc (list SuggestedTask) :=
  let suggestions := [] in
  await suggestions :=
    pushIf (bool_decide (is_Some (location event))) event
      (fun due =>
         {| title := "Plan travel route";
            description :=
              Some ("Get directions to " +:+
                    match location event with
                    | Some (name, address) =>
                        if truthy name then orEmpty name else address
                    | None => ""
                    end);
            dueDate := Some due; priority := Some medium |})
      suggestions in
  let descLower :=
    PlacesResolver.toLowerCase
      (if truthy (eventDescription event)
       then orEmpty (eventDescription event) else "") in
  await suggestions :=
    pushIf (includes descLower "ticket" || includes descLower "purchase")
      event
      (fun due =>
         {| title := "Purchase tickets";
            description := Some "Buy tickets for the event";
            dueDate := Some due; priority := Some high |})
      suggestions in
  await suggestions :=
    pushIf (includes descLower "rsvp" || includes descLower "register" ||
            includes descLower "confirm")
      event
      (fun due =>
         {| title := "Send RSVP";
            description := Some "Confirm your attendance";
            dueDate := Some due; priority := Some high |})
      suggestions in
  await suggestions :=
    pushIf (includes descLower "presentation" ||
            includes descLower "meeting" || includes descLower "prepare")
      event
      (fun due =>
         {| title := "Prepare materials";
            description := Some "Gather materials for the event";
            dueDate := Some due; priority := Some medium |})
      suggestions in
  let titleLower := PlacesResolver.toLowerCase (eventTitle event) in
  await suggestions :=
    pushIf (includes titleLower "concert" || includes titleLower "show")
      event
      (fun due =>
         {| title := "Check parking/transportation";
            description := Some "Plan how to get to the venue";
            dueDate := Some due; priority := Some medium |})
      suggestions in
  await suggestions :=
    pushIf (includes titleLower "dinner" || includes titleLower "lunch" ||
            includes titleLower "restaurant")
      event
      (fun due =>
         {| title := "Make reservation";
            description := Some "Confirm restaurant reservation if needed";
            dueDate := Some due; priority := Some high |})
      suggestions in
  Ok suggestions.

End Suggestions.

End TasksService.

(** * Theorems *)

(** ** Frame sampler *)

Module FrameSamplerSpec.
Import FrameSampler.

Example sample_100_5 :
  calculateSmartTimestamps 100 5 = Some [0; 5; 15; 43; 66].
Proof. vm_compute. reflexivity. Qed.

Example sample_short :
  calculateSmartTimestamps 0.5 1 = Some [0].
Proof. vm_compute. reflexivity. Qed.

Lemma Qltb_lt x y : Qltb x y = true <-> (x < y)%Q.
Proof.
  unfold Qltb. rewrite negb_true_iff. split.
  - intros H. apply Qnot_le_lt. intros Hle.
    apply Qle_bool_iff in Hle. congruence.
  - intros H. destruct (Qle_bool y x) eqn:E; [|done].
    apply Qle_bool_iff in E. exfalso. exact (Qlt_not_le _ _ H E).
Qed.

(** What every pushed timestamp satisfies. *)
Definition inRange (duration : Q) (z : Z) : Prop :=
  0 <= z /\ (inject_Z z < duration)%Q.

Lemma floor_inRange duration x :
  (0 <= x)%Q -> (x < duration)%Q -> inRange duration (Qfloor x).
Proof.
  intros H0 Hd. split.
  - change 0 with (Qfloor 0). by apply Qfloor_resp_le.
  - eapply Qle_lt_trans; [apply Qfloor_le | done].
Qed.

Lemma push_inRange duration x ts :
  (0 <= x)%Q -> Forall (inRange duration) ts ->
  Forall (inRange duration)
    (if Qltb x duration then ts ++ [Qfloor x] else ts).
Proof.
  intros H0 Hts. destruct (Qltb x duration) eqn:E; [|done].
  apply Forall_app. split; [done|].
  constructor; [|constructor]. apply floor_inRange; [done|].
  by apply Qltb_lt.
Qed.

Lemma push_keeps (x duration : Q) (z : Z) ts :
  z ∈ ts -> z ∈ (if Qltb x duration then ts ++ [Qfloor x] else ts).
Proof. intros H. destruct (Qltb x duration); set_solver. Qed.

Lemma earlyLoop_returns fuel : forall t ew d ts,
  (ew <= 60)%Q -> (60 <= t + 10 * inject_Z (Z.of_nat fuel))%Q ->
  exists ts', earlyLoop fuel t ew d ts = Some ts'.
Proof.
  induction fuel as [|fuel IH]; intros t ew d ts Hew Hfuel; simpl.
  - destruct (Qltb t ew) eqn:E; [|eauto].
    apply Qltb_lt in E. exfalso.
    change (inject_Z (Z.of_nat 0)) with 0%Q in Hfuel. lra.
  - destruct (Qltb t ew) eqn:E; [|eauto].
    apply IH; [done|].
    rewrite Nat2Z.inj_succ, <- Z.add_1_r, inject_Z_plus in Hfuel.
    change (inject_Z 1) with 1%Q in Hfuel. lra.
Qed.

Lemma earlyLoop_inRange fuel : forall t ew d ts ts',
  (0 <= t)%Q -> Forall (inRange d) ts ->
  earlyLoop fuel t ew d ts = Some ts' -> Forall (inRange d) ts'.
Proof.
  induction fuel as [|fuel IH]; intros t ew d ts ts' Ht Hts; simpl.
  - destruct (Qltb t ew); [done|]. by intros [= <-].
  - destruct (Qltb t ew); [|by intros [= <-]].
    apply IH; [lra|]. by apply push_inRange.
Qed.

Lemma earlyLoop_keeps fuel : forall t ew d ts ts' (z : Z),
  z ∈ ts -> earlyLoop fuel t ew d ts = Some ts' -> z ∈ ts'.
Proof.
  induction fuel as [|fuel IH]; intros t ew d ts ts' z Hz; simpl.
  - destruct (Qltb t ew); [done|]. by intros [= <-].
  - destruct (Qltb t ew); [|by intros [= <-]].
    apply IH. by apply push_keeps.
Qed.

Lemma spreadLoop_inRange indices : forall s i d ts,
  (0 <= s)%Q -> (0 <= i)%Q -> Forall (fun k => 0 <= k) indices ->
  Forall (inRange d) ts -> Forall (inRange d) (spreadLoop indices s i d ts).
Proof.
  induction indices as [|k rest IH]; intros s i d ts Hs Hi Hk Hts; simpl.
  - done.
  - inversion Hk; subst. apply IH; try done.
    apply push_inRange; [|done].
    assert (0 <= inject_Z k)%Q
      by (change 0%Q with (inject_Z 0); rewrite <- Zle_Qle; lia).
    assert (0 <= i * inject_Z k)%Q by (by apply Qmult_le_0_compat).
    lra.
Qed.

Lemma spreadLoop_keeps indices : forall s i d ts (z : Z),
  z ∈ ts -> z ∈ spreadLoop indices s i d ts.
Proof.
  induction indices as [|k rest IH]; intros s i d ts z Hz; simpl; [done|].
  apply IH. by apply push_keeps.
Qed.

Lemma elem_of_setOf timestamps : forall seen (x : Z),
  x ∈ setOf seen timestamps <-> x ∈ timestamps /\ x ∉ seen.
Proof.
  induction timestamps as [|t rest IH]; intros seen x; simpl.
  - set_solver.
  - case_bool_decide as Hin.
    + rewrite IH, elem_of_cons. split; [tauto|].
      intros [[->|Hx] Hns]; [done|tauto].
    + rewrite !elem_of_cons, IH, elem_of_cons. split.
      * intros [->|[Hx Hns]]; [tauto|]. split; [tauto|]. tauto.
      * intros [[->|Hx] Hns]; [tauto|].
        destruct (decide (x = t)) as [->|Hne]; [tauto|]. right. tauto.
Qed.

Lemma NoDup_setOf timestamps : forall seen, NoDup (setOf seen timestamps).
Proof.
  induction timestamps as [|t rest IH]; intros seen; simpl.
  - constructor.
  - case_bool_decide as Hin; [apply IH|].
    constructor; [|apply IH].
    rewrite elem_of_setOf. set_solver.
Qed.

Lemma sortAscending_perm l : sortAscending l ≡ₚ l.
Proof. apply merge_sort_Permutation. Qed.

Lemma sortAscending_sorted l : StronglySorted Z.le (sortAscending l).
Proof. apply StronglySorted_merge_sort; apply _. Qed.

Lemma sorted_NoDup_strict (l : list Z) :
  StronglySorted Z.le l -> NoDup l -> StronglySorted Z.lt l.
Proof.
  induction 1 as [|x l Hs IH Hx]; intros Hnd; [constructor|].
  apply NoDup_cons in Hnd as [Hnotin Hnd].
  constructor; [by apply IH|].
  apply Forall_forall. intros y Hy.
  rewrite Forall_forall in Hx. specialize (Hx y Hy).
  assert (x <> y) by (intros ->; done). lia.
Qed.

Lemma strict_take (n : nat) (l : list Z) :
  StronglySorted Z.lt l -> StronglySorted Z.lt (take n l).
Proof.
  intros H. rewrite <- (take_drop n l) in H.
  by apply StronglySorted_app_1_l in H.
Qed.

(** In a strictly ascending list of non-negative integers that holds 0,
    0 comes first, so every non-empty prefix keeps it. *)
Lemma zero_in_take (n : nat) (l : list Z) :
  StronglySorted Z.lt l -> Forall (fun z => 0 <= z) l -> 0 ∈ l ->
  0 ∈ take (S n) l.
Proof.
  intros Hs Hpos Hin. destruct l as [|x r]; [set_solver|]. simpl.
  apply StronglySorted_inv in Hs as [_ Hx].
  apply elem_of_cons in Hin as [<-|Hin]; [set_solver|].
  rewrite Forall_forall in Hx. specialize (Hx 0 Hin).
  apply Forall_cons in Hpos as [Hx0 _]. lia.
Qed.

Lemma inRange_nonneg d l : Forall (inRange d) l -> Forall (fun z => 0 <= z) l.
Proof. intros H. eapply Forall_impl; [exact H|]. by intros z [Hz _]. Qed.

Lemma inRange_below d l :
  Forall (inRange d) l -> Forall (fun z => (inject_Z z < d)%Q) l.
Proof. intros H. eapply Forall_impl; [exact H|]. by intros z [_ Hz]. Qed.

(** The raw timestamp array, before de-duplication: it holds 0 and only
    non-negative integers below the duration. *)
Lemma raw_timestamps duration frameCount early :
  (0 < duration)%Q ->
  earlyLoop earlyFuel 5 (Qmin 60 (duration * 0.2)%Q) duration [0] =
    Some early ->
  let remainingFrames := frameCount - Z.of_nat (length early) in
  let raw :=
    if 0 <? remainingFrames then
      let startTime := Qmax (Qmin 60 (duration * 0.2)%Q) (duration * 0.1)%Q in
      let endTime := (duration * 0.9)%Q in
      let interval :=
        ((endTime - startTime) / inject_Z (remainingFrames + 1))%Q in
      spreadLoop (seqZ 1 remainingFrames) startTime interval duration early
    else early in
  0 ∈ raw /\ Forall (inRange duration) raw.
Proof.
  intros Hd Hearly rem raw.
  assert (H0 : 0 ∈ early) by (eapply earlyLoop_keeps; [|done]; set_solver).
  assert (Hr : Forall (inRange duration) early).
  { eapply earlyLoop_inRange; [| |done]; [lra|].
    constructor; [|constructor]. split; [lia|]. done. }
  subst raw. destruct (0 <? rem) eqn:Hrem; [|done].
  apply Z.ltb_lt in Hrem. split; [by apply spreadLoop_keeps|].
  pose proof (Q.le_max_r (Qmin 60 (duration * 0.2)) (duration * 0.1)) as Hmax.
  assert (Qmax (Qmin 60 (duration * 0.2)) (duration * 0.1) <= duration * 0.9)%Q
    as Hlub.
  { apply Q.max_lub; [|lra].
    pose proof (Q.le_min_r 60 (duration * 0.2)). lra. }
  apply spreadLoop_inRange; [lra| | |done].
  - unfold Qdiv. apply Qmult_le_0_compat; [lra|].
    apply Qinv_le_0_compat.
    change 0%Q with (inject_Z 0). rewrite <- Zle_Qle. lia.
  - apply Forall_forall. intros k Hk. apply elem_of_seqZ in Hk. lia.
Qed.




End FrameSamplerSpec.

(** ** Strings *)

Module StrSpec.
Import Str.

Lemma chars_append a b : chars (a +:+ b) = chars a ++ chars b.
Proof. induction a as [|c a IH]; simpl; [done|]. by rewrite <- IH. Qed.

Lemma isPrefixOf_app needle r : isPrefixOf needle (needle ++ r) = true.
Proof.
  induction needle as [|c needle IH]; simpl; [done|].
  by rewrite Ascii.eqb_refl.
Qed.

Lemma isPrefixOf_weaken needle l r :
  isPrefixOf needle l = true -> isPrefixOf needle (l ++ r) = true.
Proof.
  revert l. induction needle as [|c needle IH]; intros [|x l]; simpl; try done.
  rewrite !andb_true_iff. intros [-> H]. auto.
Qed.

Lemma includesChars_head needle r : includesChars needle (needle ++ r) = true.
Proof.
  destruct (needle ++ r) eqn:E; simpl; rewrite <- E, isPrefixOf_app; done.
Qed.

Lemma includesChars_app_r needle p l :
  includesChars needle l = true -> includesChars needle (p ++ l) = true.
Proof.
  intros H. induction p as [|c p IH]; simpl; [done|].
  rewrite IH. apply orb_true_r.
Qed.

Lemma includesChars_app_l needle l r :
  includesChars needle l = true -> includesChars needle (l ++ r) = true.
Proof.
  induction l as [|c l IH]; simpl.
  - rewrite orb_false_r. destruct needle; [|done]. intros _. by destruct r.
  - rewrite orb_true_iff. intros [H|H].
    + apply (isPrefixOf_weaken _ (c :: l) r) in H. simpl in H.
      by rewrite H.
    + rewrite (IH H). apply orb_true_r.
Qed.

(** Every part of a joined array occurs in the result. *)
Lemma includes_join sep parts s :
  s ∈ parts -> includes (join sep parts) s = true.
Proof.
  unfold includes. induction parts as [|p rest IH]; intros Hin.
  - by apply elem_of_nil in Hin.
  - destruct rest as [|q rest].
    + apply list_elem_of_singleton in Hin as ->. simpl.
      rewrite <- (app_nil_r (chars p)) at 2. apply includesChars_head.
    + change (join sep (p :: q :: rest))
        with (p +:+ sep +:+ join sep (q :: rest)).
      rewrite !chars_append.
      apply elem_of_cons in Hin as [->|Hin].
      * apply includesChars_head.
      * rewrite app_assoc. apply includesChars_app_r. auto.
Qed.

Lemma elem_of_filterBoolean parts s :
  s ∈ parts -> s <> "" -> s ∈ filterBoolean parts.
Proof.
  intros Hin Hne. apply list_elem_of_In, filter_In.
  split; [by apply list_elem_of_In|].
  apply negb_true_iff, String.eqb_neq, Hne.
Qed.

End StrSpec.

Module GeminiSpec.
Import Str GeminiExtractor.

Example normalizeTime_8pm : normalizeTime "8pm" = Ok "20:00:00".
Proof. vm_compute. reflexivity. Qed.
Example normalizeTime_1230am : normalizeTime " 12:30 AM " = Ok "00:30:00".
Proof. vm_compute. reflexivity. Qed.
Example normalizeTime_123pm : normalizeTime "123pm" = Ok "13:23:00".
Proof. vm_compute. reflexivity. Qed.
Example normalizeTime_2000 : normalizeTime "20:00" = Ok "20:00:00".
Proof. vm_compute. reflexivity. Qed.
Example normalizeTime_7_5 : normalizeTime "7:5" = Ok "07:05:00".
Proof. vm_compute. reflexivity. Qed.
Example normalizeTime_date : normalizeTime "2025-12-30" =
  Throw "Invalid time format: 2025-12-30 (appears to be a date, not a time)".
Proof. vm_compute. reflexivity. Qed.
(** Date-shaped input never comes back as a time. *)
Lemma normalizeTime_rejects_dates (time : string) :
  testPrefix isoDate (trim time) || testPrefix slashDate (trim time) = true ->
  throws (normalizeTime time).
Proof.
  intros H. unfold normalizeTime, throws.
  destruct (String.eqb time ""); [eauto|]. rewrite H. eauto.
Qed.

(** C10, at the failing input.  "99pm" matches the am/pm pattern with hour
    99; twelve is added and nothing checks the range, so the result has a
    three-digit hour and is not of the shape HH:MM:SS. *)
Theorem normalizeTime_three_digit_hour :
  normalizeTime "99pm" = Ok "111:00:00" /\
  testWhole hhmmss "111:00:00" = false.
Proof. vm_compute. auto. Qed.

(** *** Where the shape HH:MM:SS holds *)

Definition digitChars : list ascii := chars "0123456789".

Lemma isDigit_cases c : isDigit c = true -> c ∈ digitChars.
Proof.
  destruct c as [[] [] [] [] [] [] [] []]; intros H;
    first [ by vm_compute in H
          | apply (bool_decide_unpack _); vm_compute; exact I ].
Qed.

(** One or two digits, and exactly two digits, as strings. *)
Definition twoDigits : list string :=
  a ← digitChars; b ← digitChars; [ofChars [a; b]].
Definition oneOrTwoDigits : list string :=
  ((fun a => ofChars [a]) <$> digitChars) ++ twoDigits.

Lemma takeDigits_1 l h rest :
  takeDigits 1 l = Some (h, rest) -> ofChars h ∈ oneOrTwoDigits.
Proof.
  unfold takeDigits. destruct l as [|a l]; [done|].
  cbn [take length forallb drop].
  rewrite andb_true_r. destruct (isDigit a) eqn:Ha;
    [|by rewrite andb_false_r].
  rewrite bool_decide_eq_true_2 by done. cbn [andb]. intros [= <- _].
  apply elem_of_app. left. apply (list_elem_of_fmap_2 (fun a => ofChars [a])).
  by apply isDigit_cases.
Qed.

Lemma takeDigits_2 l h rest :
  takeDigits 2 l = Some (h, rest) -> ofChars h ∈ twoDigits.
Proof.
  unfold takeDigits. destruct l as [|a [|b l]]; [done|done|].
  cbn [take length forallb drop].
  rewrite andb_true_r. destruct (isDigit a) eqn:Ha;
    [|by rewrite andb_false_r].
  destruct (isDigit b) eqn:Hb; [|by rewrite andb_false_r].
  rewrite bool_decide_eq_true_2 by done. cbn [andb]. intros [= <- _].
  unfold twoDigits. apply list_elem_of_bind. exists a.
  split; [|by apply isDigit_cases].
  apply list_elem_of_bind. exists b. split; [|by apply isDigit_cases].
  apply list_elem_of_singleton. done.
Qed.

(** What a match of the am/pm pattern can capture. *)
Definition wellFormed (m : AmPmMatch) : Prop :=
  hourDigits m ∈ oneOrTwoDigits /\
  match minuteDigits m with
  | Some digits => digits ∈ twoDigits
  | None => True
  end.

Lemma matchMinutes_wellFormed h l m :
  ofChars h ∈ oneOrTwoDigits -> matchMinutes h l = Some m -> wellFormed m.
Proof.
  intros Hh. unfold matchMinutes, orElse.
  destruct (takeDigits 2 l) as [[mm rest]|] eqn:Hm.
  - destruct (matchMeridiem rest) as [pm|].
    + intros [= <-]. split; [done|]. simpl. by apply takeDigits_2 in Hm.
    + destruct (matchMeridiem l) as [pm|]; [|done].
      by intros [= <-].
  - destruct (matchMeridiem l) as [pm|]; [|done]. by intros [= <-].
Qed.

Lemma matchColon_wellFormed h l m :
  ofChars h ∈ oneOrTwoDigits -> matchColon h l = Some m -> wellFormed m.
Proof.
  intros Hh. unfold matchColon, orElse.
  destruct l as [|c rest]; [by apply matchMinutes_wellFormed|].
  destruct (Ascii.eqb c ":") eqn:Hc.
  - apply Ascii.eqb_eq in Hc as ->.
    destruct (matchMinutes h rest) as [m'|] eqn:H1.
    + intros [= <-]. by apply matchMinutes_wellFormed in H1.
    + by apply matchMinutes_wellFormed.
  - assert (match c with
            | ":"%char => matchMinutes h rest
            | _ => None
            end = None) as ->.
    { destruct c as [[] [] [] [] [] [] [] []]; try done. }
    by apply matchMinutes_wellFormed.
Qed.

Lemma matchAt_wellFormed l m : matchAt l = Some m -> wellFormed m.
Proof.
  unfold matchAt, orElse.
  destruct (takeDigits 2 l) as [[h rest]|] eqn:H2.
  - destruct (matchColon h rest) as [m'|] eqn:Hc.
    + intros [= <-]. apply matchColon_wellFormed in Hc; [done|].
      apply elem_of_app. right. by apply takeDigits_2 in H2.
    + destruct (takeDigits 1 l) as [[h1 rest1]|] eqn:H1; [|done].
      apply matchColon_wellFormed. by apply takeDigits_1 in H1.
  - destruct (takeDigits 1 l) as [[h1 rest1]|] eqn:H1; [|done].
    apply matchColon_wellFormed. by apply takeDigits_1 in H1.
Qed.

Lemma amPmSearch_wellFormed l m : amPmSearch l = Some m -> wellFormed m.
Proof.
  induction l as [|c l IH]; cbn [amPmSearch].
  - destruct (matchAt []) as [m'|] eqn:H; [|done].
    intros [= <-]. by apply matchAt_wellFormed in H.
  - destruct (matchAt (c :: l)) as [m'|] eqn:H; [|exact IH].
    intros [= <-]. by apply matchAt_wellFormed in H.
Qed.

(** The am/pm branch of [normalizeTime], on its match. *)
Definition hourValue (m : AmPmMatch) : Z :=
  default 0 (parseInt (hourDigits m)).

Definition amPmTime (m : AmPmMatch) : string :=
  let hours := hourValue m in
  let minutes :=
    match minuteDigits m with
    | Some digits => default 0 (parseInt digits)
    | None => 0
    end in
  let hours := if isPm m && negb (hours =? 12) then hours + 12 else hours in
  let hours := if negb (isPm m) && (hours =? 12) then 0 else hours in
  formatTime hours minutes.

Definition shapedUnlessLate (m : AmPmMatch) : bool :=
  testWhole hhmmss (amPmTime m) || (isPm m && (88 <=? hourValue m)).

Lemma shapedUnlessLate_all :
  forallb (fun h =>
    forallb (fun mins =>
      forallb (fun pm =>
        shapedUnlessLate
          {| hourDigits := h; minuteDigits := mins; isPm := pm |})
        [true; false])
      (None :: (Some <$> twoDigits)))
    oneOrTwoDigits = true.
Proof. vm_compute. reflexivity. Qed.

Lemma amPmTime_shape m :
  wellFormed m ->
  testWhole hhmmss (amPmTime m) = true \/
  (isPm m = true /\ 88 <= hourValue m).
Proof.
  destruct m as [h mins pm]. intros [Hh Hm]. simpl in Hh, Hm.
  pose proof shapedUnlessLate_all as Hall.
  rewrite forallb_forall in Hall.
  specialize (Hall h (proj1 (list_elem_of_In _ _) Hh)).
  rewrite forallb_forall in Hall.
  assert (In mins (None :: (Some <$> twoDigits))) as Hin.
  { apply list_elem_of_In. destruct mins as [digits|].
    - apply elem_of_cons. right. by apply list_elem_of_fmap_2.
    - apply elem_of_cons. by left. }
  specialize (Hall mins Hin). rewrite forallb_forall in Hall.
  assert (In pm [true; false]) as Hpm by (destruct pm; simpl; auto).
  specialize (Hall pm Hpm). unfold shapedUnlessLate in Hall.
  apply orb_true_iff in Hall as [H|H]; [by left|right].
  apply andb_true_iff in H as [H1 H2]. simpl in H1.
  split; [done|]. by apply Z.leb_le.
Qed.

Lemma formatTime_shape_all :
  forallb (fun hours =>
    forallb (fun minutes => testWhole hhmmss (formatTime hours minutes))
      (seqZ 0 60))
    (seqZ 0 24) = true.
Proof. vm_compute. reflexivity. Qed.

Lemma formatTime_shape hours minutes :
  inRangeZ 0 23 (Some hours) = true -> inRangeZ 0 59 (Some minutes) = true ->
  testWhole hhmmss (formatTime hours minutes) = true.
Proof.
  unfold inRangeZ. rewrite !andb_true_iff, !Z.leb_le. intros Hh Hm.
  pose proof formatTime_shape_all as Hall.
  rewrite forallb_forall in Hall.
  assert (In hours (seqZ 0 24)) as Hin
    by (apply list_elem_of_In, elem_of_seqZ; lia).
  specialize (Hall hours Hin). rewrite forallb_forall in Hall.
  apply Hall. apply list_elem_of_In, elem_of_seqZ. lia.
Qed.

Lemma hhmm_with_seconds t :
  testWhole hhmm t = true -> testWhole hhmmss (t +:+ ":00") = true.
Proof.
  unfold testWhole. rewrite StrSpec.chars_append.
  destruct (chars t) as [|a [|b [|c [|d [|e [|f l]]]]]]; simpl; try done;
    repeat (match goal with
            | |- context [if ?x then _ else _] => destruct x; try done
            end).
Qed.

(** X25. Every result of [normalizeTime] has the shape HH:MM:SS, except in the
    am/pm branch for "pm" hours from 88 up. *)
Lemma normalizeTime_shape time result :
  normalizeTime time = Ok result ->
  testWhole hhmmss result = true \/
  exists m, amPmSearch (chars (trim time)) = Some m /\
            isPm m = true /\ 88 <= hourValue m.
Proof.
  unfold normalizeTime. destruct (String.eqb time ""); [done|].
  destruct (testPrefix isoDate (trim time) || testPrefix slashDate (trim time));
    [done|].
  destruct (testWhole hhmmss (trim time)) eqn:H3; [intros [= <-]; by left|].
  destruct (testWhole hhmm (trim time)) eqn:H2.
  { intros [= <-]. left. by apply hhmm_with_seconds. }
  destruct (amPmSearch (chars (trim time))) as [m|] eqn:Hs.
  - intros [= <-]. change (formatTime _ _) with (amPmTime m).
    destruct (amPmTime_shape m) as [H|H];
      [by apply amPmSearch_wellFormed in Hs|by left|right; eauto].
  - destruct (includes (trim time) ":"); [|done].
    destruct (split (trim time) ":") as [|part0 [|part1 parts]]; try done.
    destruct (parseInt part0) as [hours|]; [|done].
    destruct (inRangeZ 0 23 (Some hours)) eqn:Hh; [|done].
    destruct (parseInt part1) as [minutes|]; [|done].
    destruct (inRangeZ 0 59 (Some minutes)) eqn:Hm; [|done].
    intros [= <-]. left. by apply formatTime_shape.
Qed.

End GeminiSpec.

(** ** Stage 3 merge *)

Module FusionSpec.
Import Str Event ExtractRoute.

Section Merge.

Variable localDate : Z -> Z -> Z -> option (Z * Z * Z).
Variable parseDate : string -> option (Z * Z * Z).
Variable generate : string -> Exc DraftEvent.

Abbreviation stage3 := (stage3 localDate parseDate generate).
Abbreviation extractFromText :=
  (extractFromText localDate parseDate generate).

Lemma complete_true a :
  complete a = true <-> truthy (title a) = true /\ truthy (date a) = true.
Proof. unfold complete. apply andb_true_iff. Qed.

Lemma title_mergeFromDescription f d :
  title (mergeFromDescription f d) = title f /\
  date (mergeFromDescription f d) = date f.
Proof. unfold mergeFromDescription. by destruct (complete d). Qed.

Lemma title_dropAllDayEndTime e :
  title (dropAllDayEndTime e) = title e /\
  date (dropAllDayEndTime e) = date e.
Proof.
  unfold dropAllDayEndTime.
  by destruct (negb (truthy (time e)) && truthy (endTime e)).
Qed.

Lemma title_preserveTypes f e :
  title (preserveTypes f e) = title e /\ date (preserveTypes f e) = date e.
Proof.
  unfold preserveTypes.
  destruct (truthy (eventType f) && negb (truthy (eventType e)));
    destruct (truthy (venueType f) && negb (truthy _)); done.
Qed.

Lemma time_preserveTypes f e :
  time (preserveTypes f e) = time e /\
  endTime (preserveTypes f e) = endTime e.
Proof.
  unfold preserveTypes.
  destruct (truthy (eventType f) && negb (truthy (eventType e)));
    destruct (truthy (venueType f) && negb (truthy _)); done.
Qed.

(** The all-day rule, where it is applied. *)
Lemma dropAllDayEndTime_clears e :
  truthy (time (dropAllDayEndTime e)) = false ->
  endTime (dropAllDayEndTime e) = None \/
  truthy (endTime (dropAllDayEndTime e)) = false.
Proof.
  unfold dropAllDayEndTime.
  destruct (truthy (time e)) eqn:Ht, (truthy (endTime e)) eqn:He; simpl;
    intros H; auto; congruence.
Qed.

Lemma stage3_frame metadata transcription f d data :
  complete f = true ->
  stage3 metadata transcription f d data =
    Ok (UsingFrameAnalysis, mergeFromDescription f d).
Proof. intros H. unfold ExtractRoute.stage3. by rewrite H. Qed.

Lemma stage3_description metadata transcription f d data :
  complete f = false -> complete d = true ->
  stage3 metadata transcription f d data =
    Ok (UsingDescriptionAnalysis, preserveTypes f (dropAllDayEndTime d)).
Proof. intros Hf Hd. unfold ExtractRoute.stage3. by rewrite Hf, Hd. Qed.

Lemma stage3_combined metadata transcription f d data :
  complete f = false -> complete d = false ->
  stage3 metadata transcription f d data =
    (await extracted :=
       extractFromText (combinedText metadata transcription f d data) in
     Ok (UsingCombinedExtraction,
         preserveTypes f (dropAllDayEndTime extracted))).
Proof. intros Hf Hd. unfold ExtractRoute.stage3. by rewrite Hf, Hd. Qed.

Lemma stage3_combined_using metadata transcription f d data u ev :
  complete f = false -> complete d = false ->
  stage3 metadata transcription f d data = Ok (u, ev) ->
  u = UsingCombinedExtraction.
Proof.
  intros Hf Hd. rewrite stage3_combined by done.
  destruct (extractFromText _); simpl; congruence.
Qed.

(** Which branch ran, read off the result. *)
Lemma stage3_using metadata transcription f d data u ev :
  stage3 metadata transcription f d data = Ok (u, ev) ->
  match u with
  | UsingFrameAnalysis =>
      complete f = true /\ ev = mergeFromDescription f d
  | UsingDescriptionAnalysis =>
      complete f = false /\ complete d = true /\
      ev = preserveTypes f (dropAllDayEndTime d)
  | UsingCombinedExtraction =>
      complete f = false /\ complete d = false /\
      exists extracted,
        extractFromText (combinedText metadata transcription f d data) =
          Ok extracted /\
        ev = preserveTypes f (dropAllDayEndTime extracted)
  end.
Proof.
  destruct (complete f) eqn:Hf; [|destruct (complete d) eqn:Hd].
  - rewrite stage3_frame by done. by intros [= <- <-].
  - rewrite stage3_description by done. by intros [= <- <-].
  - rewrite stage3_combined by done.
    destruct (extractFromText _) as [extracted|] eqn:He; simpl; [|done].
    intros [= <- <-]. eauto.
Qed.

(** X28. Every non-empty signal occurs in the combined text. *)
Lemma combinedText_includes metadata transcription f d data signal :
  signal ∈ [ orEmpty (metaTitle metadata); orEmpty (metaDescription metadata);
             transcription;
             orEmpty (title f); orEmpty (date f); orEmpty (time f);
             orEmpty (location f); orEmpty (description f);
             orEmpty (title d); orEmpty (date d); orEmpty (time d);
             orEmpty (location d); orEmpty (description d);
             data ] ->
  signal <> "" ->
  includes (combinedText metadata transcription f d data) signal = true.
Proof.
  intros Hin Hne. unfold combinedText.
  by apply StrSpec.includes_join, StrSpec.elem_of_filterBoolean.
Qed.

(** C1. Stage 3 uses the frame analysis exactly when it has a non-empty
    title and a non-empty date; failing that, the description analysis
    exactly when it passes the same test; failing both, it runs the text
    extraction over the non-empty signals joined by spaces (metadata title
    and description, transcript, frame fields, description-analysis fields,
    the request's URL).  The winner's title and date are the merged
    title and date, so with both analyses complete the merged title is the
    frame analysis title. *)
Theorem stage3_priority (metadata : Metadata) (transcription : string)
    (frameAnalyses descriptionAnalysis : DraftEvent) (data : string) :
  let merged :=
    stage3 metadata transcription frameAnalyses descriptionAnalysis data in
  ((exists ev, merged = Ok (UsingFrameAnalysis, ev)) <->
     truthy (title frameAnalyses) = true /\
     truthy (date frameAnalyses) = true) /\
  ((exists ev, merged = Ok (UsingDescriptionAnalysis, ev)) <->
     complete frameAnalyses = false /\
     truthy (title descriptionAnalysis) = true /\
     truthy (date descriptionAnalysis) = true) /\
  (complete frameAnalyses = false -> complete descriptionAnalysis = false ->
     merged =
       (await extracted :=
          extractFromText
            (join " " (filterBoolean
               [ orEmpty (metaTitle metadata);
                 orEmpty (metaDescription metadata);
                 transcription;
                 orEmpty (title frameAnalyses);
                 orEmpty (date frameAnalyses);
                 orEmpty (time frameAnalyses);
                 orEmpty (location frameAnalyses);
                 orEmpty (description frameAnalyses);
                 orEmpty (title descriptionAnalysis);
                 orEmpty (date descriptionAnalysis);
                 orEmpty (time descriptionAnalysis);
                 orEmpty (location descriptionAnalysis);
                 orEmpty (description descriptionAnalysis);
                 data ])) in
        Ok (UsingCombinedExtraction,
            preserveTypes frameAnalyses (dropAllDayEndTime extracted)))) /\
  (forall ev, merged = Ok (UsingFrameAnalysis, ev) ->
     title ev = title frameAnalyses /\ date ev = date frameAnalyses) /\
  (forall ev, merged = Ok (UsingDescriptionAnalysis, ev) ->
     title ev = title descriptionAnalysis /\
     date ev = date descriptionAnalysis) /\
  (complete frameAnalyses = true -> complete descriptionAnalysis = true ->
     exists ev, merged = Ok (UsingFrameAnalysis, ev) /\
                title ev = title frameAnalyses).
Proof.
  intros merged. subst merged. rewrite <- !complete_true.
  split; [|split; [|split; [|split; [|split]]]].
  - split.
    + intros [ev H]. by apply stage3_using in H as [? _].
    + intros H. rewrite stage3_frame by done. eauto.
  - split.
    + intros [ev H]. by apply stage3_using in H as (? & ? & _).
    + intros [Hf Hd]. rewrite stage3_description by done. eauto.
  - intros Hf Hd. by rewrite stage3_combined.
  - intros ev H. apply stage3_using in H as [_ ->].
    apply title_mergeFromDescription.
  - intros ev H. apply stage3_using in H as (_ & _ & ->).
    destruct (title_preserveTypes frameAnalyses
                (dropAllDayEndTime descriptionAnalysis)) as [-> ->].
    apply title_dropAllDayEndTime.
  - intros Hf _. rewrite stage3_frame by done.
    eexists. split; [done|]. apply title_mergeFromDescription.
Qed.

(** A clip whose frames show "Jazz Night, Dec 5, 8pm" and whose audio says
    "doors open at seven thirty", without a metadata title: the frame
    analysis is complete and wins as it is. *)
Example stage3_jazz_night (data : string) :
  let frame :=
    {| title := Some "Jazz Night"; description := None;
       date := Some "2025-12-05"; time := Some "20:00:00"; endTime := None;
       location := None; eventType := None; venueType := None |} in
  stage3 {| metaTitle := None; metaDescription := None; imageUrl := None |}
    "doors open at seven thirty" frame emptyAnalysis data =
    Ok (UsingFrameAnalysis, frame).
Proof. intros frame. by rewrite stage3_frame. Qed.

(** X26. On the two branches that apply the all-day rule, a merged candidate
    without a time has no end time either. *)
Lemma stage3_all_day_elsewhere metadata transcription f d data u ev :
  stage3 metadata transcription f d data = Ok (u, ev) ->
  u <> UsingFrameAnalysis ->
  truthy (time ev) = false -> truthy (endTime ev) = false.
Proof.
  intros H Hu Ht. apply stage3_using in H. destruct u; [done| |].
  - destruct H as (_ & _ & ->).
    destruct (time_preserveTypes f (dropAllDayEndTime d)) as [Et Ee].
    rewrite Et in Ht. rewrite Ee.
    by destruct (dropAllDayEndTime_clears _ Ht) as [-> | ->].
  - destruct H as (_ & _ & extracted & _ & ->).
    destruct (time_preserveTypes f (dropAllDayEndTime extracted)) as [Et Ee].
    rewrite Et in Ht. rewrite Ee.
    by destruct (dropAllDayEndTime_clears _ Ht) as [-> | ->].
Qed.

(** A frame analysis as [validateAndNormalize] returns it for a flyer that
    shows a date and "until 10pm" but no start time. *)
Definition jazzNight : DraftEvent :=
  {| title := Some "Jazz Night"; description := None;
     date := Some "2025-12-05"; time := None; endTime := Some "22:00:00";
     location := None; eventType := None; venueType := None |}.

Lemma normalizeDate_dec5 :
  localDate 2025 11 5 = Some (2025, 11, 5) ->
  GeminiExtractor.normalizeDate localDate parseDate (Some "2025-12-05") =
    Ok (Some "2025-12-05").
Proof.
  intros H. unfold GeminiExtractor.normalizeDate.
  replace (trim (orEmpty (Some "2025-12-05"))) with "2025-12-05"
    by (vm_compute; reflexivity).
  replace (testWhole GeminiExtractor.isoDateWhole "2025-12-05") with true
    by (vm_compute; reflexivity).
  replace (map GeminiExtractor.numberOf (split "2025-12-05" "-"))
    with [2025; 12; 5] by (vm_compute; reflexivity).
  cbn [truthy orEmpty negb andb String.eqb Ascii.eqb Bool.eqb].
  change (12 - 1) with 11. rewrite H. reflexivity.
Qed.

Lemma jazzNight_normalized :
  localDate 2025 11 5 = Some (2025, 11, 5) ->
  GeminiExtractor.validateAndNormalize localDate parseDate
    {| title := Some "Jazz Night"; description := None;
       date := Some "2025-12-05"; time := None; endTime := Some "10pm";
       location := None; eventType := None; venueType := None |}
  = Ok jazzNight.
Proof.
  intros H. unfold GeminiExtractor.validateAndNormalize. cbn [title date].
  rewrite (normalizeDate_dec5 H). vm_compute. reflexivity.
Qed.

(** C2, at the failing input.  With a complete frame analysis that has no
    start time but an end time, and nothing from the description, stage 3
    returns the frame analysis as it is: [time] absent, [endTime] still
    "22:00:00". *)
Theorem stage3_frame_keeps_endTime (metadata : Metadata)
    (transcription data : string) :
  stage3 metadata transcription jazzNight emptyAnalysis data =
    Ok (UsingFrameAnalysis, jazzNight) /\
  time jazzNight = None /\
  endTime jazzNight = Some "22:00:00".
Proof. by rewrite stage3_frame. Qed.

(** The same slip, with the end time back-filled from the description
    analysis into a frame analysis that has neither time. *)
Example stage3_frame_fills_endTime (metadata : Metadata)
    (transcription data : string) :
  let frame := setEndTime None jazzNight in
  let desc := setTime None (setEndTime (Some "22:00:00") jazzNight) in
  exists ev,
    stage3 metadata transcription frame desc data =
      Ok (UsingFrameAnalysis, ev) /\
    time ev = None /\ endTime ev = Some "22:00:00".
Proof. eexists. by rewrite stage3_frame. Qed.

(** *** Dates through the pipeline *)

Lemma normalizeDate_absent d :
  truthy d = false \/ d = Some "null" ->
  GeminiExtractor.normalizeDate localDate parseDate d = Ok None.
Proof.
  unfold GeminiExtractor.normalizeDate. intros [H | ->].
  - by rewrite H.
  - reflexivity.
Qed.

Lemma validateAndNormalize_absent_date raw ev :
  truthy (date raw) = false \/ date raw = Some "null" ->
  GeminiExtractor.validateAndNormalize localDate parseDate raw = Ok ev ->
  date ev = Some "".
Proof.
  intros Hd. unfold GeminiExtractor.validateAndNormalize.
  destruct (negb (truthy (title raw))); [done|].
  rewrite (normalizeDate_absent _ Hd). simpl. by intros [= <-].
Qed.


Section NoDate.

(** The interpreter never answers with a date. *)
Hypothesis generate_no_date : forall text raw,
  generate text = Ok raw ->
  truthy (date raw) = false \/ date raw = Some "null".

Lemma extractFromText_no_date text ev :
  extractFromText text = Ok ev -> date ev = Some "".
Proof.
  unfold ExtractRoute.extractFromText, GeminiExtractor.extractFromText.
  destruct (generate text) as [raw|] eqn:Hg; simpl; [|done].
  destruct (GeminiExtractor.validateAndNormalize _ _ raw) as [ev'|] eqn:Hv;
    simpl; [|done].
  intros [= <-]. eapply validateAndNormalize_absent_date; [|done]. eauto.
Qed.

Lemma descriptionTrack_no_date metadata timedOut :
  date (descriptionTrack localDate parseDate generate metadata timedOut) =
    Some "".
Proof.
  unfold descriptionTrack. destruct timedOut; [done|].
  destruct (negb (String.eqb _ "")); [|done].
  destruct (extractFromText _) as [ev|] eqn:He; [|done].
  by apply extractFromText_no_date in He.
Qed.

Lemma frameTrack_no_date frames raced :
  (forall analysis, raced = Ok analysis -> truthy (date analysis) = false) ->
  truthy (date (frameTrack frames raced)) = false.
Proof.
  intros H. unfold frameTrack. destruct (0 <? frames)%nat; [|done].
  destruct raced; [by apply H|done].
Qed.

Lemma incomplete_without_date a : truthy (date a) = false -> complete a = false.
Proof. unfold complete. intros ->. apply andb_false_r. Qed.

End NoDate.


End Merge.


End FusionSpec.

(** ** Promise.all and the chunked transcriber *)

Module TranscriberSpec.
Import Promise AudioTranscriber.

Section AllFulfilled.

Context {A : Type}.
Variable value : nat -> A.

Abbreviation store := (fun (values : list (option A)) (i : nat) =>
  <[i := Some (value i)]> values).

Lemma settle_fulfilled (outcome : nat -> Exc A) order : forall values,
  (forall i, i ∈ order -> outcome i = Ok (value i)) ->
  settle outcome order values = Ok (foldl store values order).
Proof.
  induction order as [|i rest IH]; intros values Hok; simpl; [done|].
  rewrite (Hok i) by set_solver. apply IH. intros j Hj. apply Hok. set_solver.
Qed.

Lemma lookup_stored order : forall (values : list (option A)) (j : nat),
  foldl store values order !! j =
    if decide (j ∈ order /\ (j < length values)%nat)
    then Some (Some (value j)) else values !! j.
Proof.
  induction order as [|i rest IH]; intros values j; cbn [foldl].
  - destruct (decide (j ∈ [] /\ (j < length values)%nat)) as [[H _]|];
      [by apply elem_of_nil in H|done].
  - rewrite IH, length_insert, list_lookup_insert.
    destruct (decide (j ∈ rest /\ (j < length values)%nat)) as [[Hin Hlt]|Hn].
    + rewrite decide_True; [done|]. split; [apply elem_of_cons; by right|done].
    + destruct (decide (i = j /\ (i < length values)%nat)) as [[-> Hlt]|Hm].
      * rewrite decide_True; [done|]. split; [apply elem_of_cons; by left|done].
      * rewrite decide_False; [done|]. intros [Hin Hlt].
        apply elem_of_cons in Hin as [->|Hin]; tauto.
Qed.

(** Whatever the completion order, the slots end up in index order. *)
Lemma stored_in_index_order n order :
  order ≡ₚ seq 0 n ->
  foldl store (replicate n None) order = (Some ∘ value) <$> seq 0 n.
Proof.
  intros Hperm. apply list_eq. intros j.
  rewrite lookup_stored, length_replicate, list_lookup_fmap.
  destruct (decide ((j < n)%nat)) as [Hlt|Hge].
  - rewrite decide_True.
    + by rewrite lookup_seq_lt.
    + split; [|done]. rewrite Hperm. apply elem_of_seq. lia.
  - rewrite decide_False by (intros [_ ?]; done).
    rewrite lookup_seq_ge by lia. simpl.
    apply lookup_replicate_None. lia.
Qed.

Lemma mapM_id_Some (l : list A) : mapM id (Some <$> l) = Some l.
Proof. apply mapM_Some. induction l; constructor; done. Qed.

Lemma all_fulfilled (outcome : nat -> Exc A) n order :
  order ≡ₚ seq 0 n ->
  (forall i, (i < n)%nat -> outcome i = Ok (value i)) ->
  all outcome n order = Some (Ok (value <$> seq 0 n)).
Proof.
  intros Hperm Hok. unfold all.
  rewrite settle_fulfilled.
  - rewrite stored_in_index_order by done.
    by rewrite list_fmap_compose, mapM_id_Some.
  - intros i Hi. apply Hok. rewrite Hperm in Hi. apply elem_of_seq in Hi. lia.
Qed.

End AllFulfilled.

(** The transcript of chunk [i]: the results joined by spaces, or the empty
    string when reading or recognising the chunk failed. *)
Definition chunkTranscript (env : Env) (i : nat) : string :=
  match recognizeChunk env i with
  | Ok results => join " " results
  | Throw _ => ""
  end.

Lemma transcribeChunk_fulfils env i :
  transcribeChunk env i = Ok (chunkTranscript env i).
Proof.
  unfold transcribeChunk, chunkTranscript. by destruct (recognizeChunk env i).
Qed.


(** C9 on 70 seconds of audio: three chunks, the second one fails, the
    last one finishes first. *)
Definition seventySeconds : Env :=
  {| speechClient := true;
     statSize := Ok 2240044;
     readAudio := Ok tt;
     recognize := Throw "deadline exceeded";
     ffprobe := Ok 70%Q;
     extractChunk := fun _ _ => Ok tt;
     recognizeChunk := fun i =>
       match i with
       | 0%nat => Ok ["doors open"]
       | 1%nat => Throw "unavailable"
       | _ => Ok ["at seven"; "thirty"]
       end |}.


(** *** What [transcribe] lets through *)

Lemma settle_rejected {A} (outcome : nat -> Exc A) order : forall values e,
  settle outcome order values = Throw e ->
  exists i, i ∈ order /\ outcome i = Throw e.
Proof.
  induction order as [|i rest IH]; intros values e; simpl; [done|].
  destruct (outcome i) as [v|e'] eqn:Hi.
  - intros H. apply IH in H as (j & Hj & Hout).
    exists j. split; [apply elem_of_cons; by right|done].
  - intros [= ->]. exists i. split; [apply elem_of_cons; by left|done].
Qed.

Lemma all_rejected {A} (outcome : nat -> Exc A) n order e :
  all outcome n order = Some (Throw e) -> exists i, outcome i = Throw e.
Proof.
  unfold all. destruct (settle outcome order _) as [values|e'] eqn:Hs.
  - by destruct (mapM id values).
  - intros [= ->]. apply settle_rejected in Hs as (i & _ & Hi). eauto.
Qed.

Lemma transcribeInChunks_rejected env o1 o2 e :
  speechClient env = true ->
  transcribeInChunks env o1 o2 = Some (Throw e) ->
  ffprobe env = Throw e \/
  exists start, extractChunk env start 30 = Throw e.
Proof.
  intros Hc. unfold transcribeInChunks. rewrite Hc. cbn [negb].
  destruct (ffprobe env) as [duration|e'] eqn:Hp; [|intros [= ->]; by left].
  destruct (all (fun i => extractChunk env (chunkStart i) chunkDuration) _ o1)
    as [[vs|e']|] eqn:Hall; cbn [bindT]; [| |done].
  - destruct (all (transcribeChunk env) _ o2) as [[ts|e']|] eqn:Hall2;
      cbn [bindT]; [done| |done].
    apply all_rejected in Hall2 as [i Hi].
    by rewrite transcribeChunk_fulfils in Hi.
  - intros [= ->]. apply all_rejected in Hall as [i Hi]. right. eauto.
Qed.

Lemma transcribeWithGoogleSpeech_rejected env o1 o2 e :
  speechClient env = true ->
  transcribeWithGoogleSpeech env o1 o2 = Some (Throw e) ->
  statSize env = Throw e \/ readAudio env = Throw e \/
  ffprobe env = Throw e \/
  exists start, extractChunk env start 30 = Throw e.
Proof.
  intros Hc. unfold transcribeWithGoogleSpeech. rewrite Hc. cbn [negb].
  destruct (statSize env) as [size|e'] eqn:Hs; [|intros [= ->]; by left].
  destruct (size <=? maxSizeBytes).
  - destruct (readAudio env) as [[]|e'] eqn:Hr; [|intros [= ->]; tauto].
    destruct (recognize env) as [[|r rs]|e'].
    + done.
    + done.
    + intros H. apply transcribeInChunks_rejected in H; tauto.
  - intros H. apply transcribeInChunks_rejected in H; tauto.
Qed.

(** A whole-file recognition that failed, and an ffmpeg that cannot cut the
    first chunk. *)
Definition brokenChunking : Env :=
  {| speechClient := true;
     statSize := Ok 3840044;
     readAudio := Ok tt;
     recognize := Throw "14 UNAVAILABLE";
     ffprobe := Ok 120%Q;
     extractChunk := fun _ _ => Throw "ffmpeg exited with code 1";
     recognizeChunk := fun _ => Ok [] |}.




End TranscriberSpec.

(** ** Code decoder *)

Module DecoderSpec.
Import Str QRCodeExtractor.

Section Chain.

Variables Image ImageData : Type.
Variable loadImage : string -> Exc Image.
Variable width height : Image -> Z.
Variable drawScaled : Image -> Z -> Z -> Exc ImageData.
Variable drawRegion : Image -> Region -> Exc ImageData.
Variable toGrayscale toHighContrast : ImageData -> Exc ImageData.
Variable jsQR : ImageData -> Inversion -> Exc (option string).
Variable urlProtocol : string -> Exc string.

Abbreviation isValidUrl := (isValidUrl urlProtocol).
Abbreviation decodeQRCode := (decodeQRCode ImageData jsQR urlProtocol).
Abbreviation strategies :=
  (strategies Image ImageData width height drawScaled drawRegion toGrayscale
     toHighContrast jsQR urlProtocol).
Abbreviation extractFromBase64 :=
  (extractFromBase64 Image ImageData loadImage width height drawScaled
     drawRegion toGrayscale toHighContrast jsQR urlProtocol).

(** What a strategy contributes to the chain: its URL, when it returns a
    truthy one; nothing when it returns [null] or throws. *)
Definition yields (strategy : Exc (option string)) : option string :=
  match strategy with
  | Ok (Some url) => if truthy (Some url) then Some url else None
  | _ => None
  end.

(** The protocol test of [isValidUrl], spelled out. *)
Lemma isValidUrl_http url :
  isValidUrl url = true <->
  urlProtocol url = Ok "http:" \/ urlProtocol url = Ok "https:".
Proof.
  unfold QRCodeExtractor.isValidUrl.
  destruct (urlProtocol url) as [protocol|e]; simpl.
  - rewrite orb_true_iff, !String.eqb_eq. split.
    + intros [-> | ->]; auto.
    + intros [[= ->] | [= ->]]; auto.
  - split; [done|]. by intros [|].
Qed.

Lemma validated_valid data url :
  validated urlProtocol data = Some url -> isValidUrl url = true.
Proof.
  unfold validated. destruct (isValidUrl (trim data)) eqn:H; [|done].
  by intros [= <-].
Qed.

Lemma decodeQRCode_valid imageData url :
  decodeQRCode imageData = Ok (Some url) -> isValidUrl url = true.
Proof.
  unfold QRCodeExtractor.decodeQRCode.
  destruct (jsQR imageData dontInvert) as [code|]; simpl; [|done].
  destruct (truthy code); simpl.
  - intros [= H]. by apply validated_valid in H.
  - destruct (jsQR imageData attemptBoth) as [inverted|]; simpl; [|done].
    destruct (truthy inverted); [|done].
    intros [= H]. by apply validated_valid in H.
Qed.

Lemma decoded_valid (drawn : Exc ImageData) url :
  (await imageData := drawn in decodeQRCode imageData) = Ok (Some url) ->
  isValidUrl url = true.
Proof. destruct drawn; simpl; [apply decodeQRCode_valid|done]. Qed.

Lemma firstRegion_valid image rs url :
  firstRegion Image ImageData drawRegion jsQR urlProtocol image rs =
    Ok (Some url) ->
  isValidUrl url = true.
Proof.
  induction rs as [|region rest IH]; simpl; [done|].
  destruct (drawRegion image region) as [imageData|]; simpl; [|done].
  destruct (decodeQRCode imageData) as [result|] eqn:Hd; simpl; [|done].
  destruct (truthy result); [|done].
  intros [= ->]. by apply decodeQRCode_valid in Hd.
Qed.

(** Every variant answers with a valid http(s) URL or with nothing. *)
Lemma strategies_valid image strategy url :
  strategy ∈ strategies image -> strategy = Ok (Some url) ->
  isValidUrl url = true.
Proof.
  unfold QRCodeExtractor.strategies. rewrite !elem_of_cons, elem_of_nil.
  intros [->|[->|[->|[->|[->|[->|[]]]]]]].
  - apply decoded_valid.
  - unfold tryExtractResized.
    destruct (if height image <? width image then _ else _) as [w1 h1].
    apply decoded_valid.
  - unfold tryExtractResized.
    destruct (if height image <? width image then _ else _) as [w1 h1].
    apply decoded_valid.
  - unfold tryExtractGrayscale.
    destruct (drawScaled _ _ _) as [imageData|]; simpl; [|done].
    apply decoded_valid.
  - unfold tryExtractHighContrast.
    destruct (drawScaled _ _ _) as [imageData|]; simpl; [|done].
    apply decoded_valid.
  - apply firstRegion_valid.
Qed.

Lemma attempt_yields strategy :
  attempt strategy = Ok (match yields strategy with
                         | Some url => Some (Some url)
                         | None => None
                         end).
Proof.
  unfold attempt, yields. destruct strategy as [[url|]|]; simpl; [|done|done].
  by destruct (negb (String.eqb url "")).
Qed.

(** The loop returns the first yield of the chain, and never throws. *)
Lemma tryStrategies_first chain :
  exists result,
    tryStrategies chain = Ok result /\
    match result with
    | Some url =>
        exists i : nat,
          chain !! i = Some (Ok (Some url)) /\
          forall (j : nat) strategy, (j < i)%nat ->
            chain !! j = Some strategy -> yields strategy = None
    | None => forall strategy, strategy ∈ chain -> yields strategy = None
    end.
Proof.
  induction chain as [|strategy rest IH]; simpl.
  - exists None. split; [done|]. intros strategy H. by apply elem_of_nil in H.
  - rewrite attempt_yields. destruct (yields strategy) as [url|] eqn:Hy; simpl.
    + exists (Some url). split; [done|]. exists 0%nat. split.
      * unfold yields in Hy. destruct strategy as [[u|]|]; try done.
        destruct (truthy (Some u)); [|done]. by injection Hy as ->.
      * intros j st Hj. lia.
    + destruct IH as (result & -> & IH). exists result. split; [done|].
      destruct result as [url|].
      * destruct IH as (i & Hi & Hbefore). exists (S i). split; [done|].
        intros [|j] st Hj; simpl.
        -- by intros [= <-].
        -- apply Hbefore. lia.
      * intros st Hst. apply elem_of_cons in Hst as [->|Hst]; auto.
Qed.

(** C8. [extractFromBase64] always returns, never throws.  When it returns
    a URL, that URL passed [isValidUrl] (it parses, with protocol http: or
    https:) and is the answer of the first variant of the fixed chain that
    yields one; when it returns [null], the image data was empty, or the
    image could not be loaded, or no variant of the chain yields a URL. *)
Theorem extractFromBase64_first_valid_url (imageBase64 : string) :
  exists result,
    extractFromBase64 imageBase64 = Ok result /\
    match result with
    | Some url =>
        isValidUrl url = true /\
        exists image (i : nat),
          loadImage (stripDataUri imageBase64) = Ok image /\
          strategies image !! i = Some (Ok (Some url)) /\
          forall (j : nat) strategy, (j < i)%nat ->
            strategies image !! j = Some strategy -> yields strategy = None
    | None =>
        stripDataUri imageBase64 = "" \/
        (exists e, loadImage (stripDataUri imageBase64) = Throw e) \/
        exists image,
          loadImage (stripDataUri imageBase64) = Ok image /\
          forall strategy,
            strategy ∈ strategies image -> yields strategy = None
    end.
Proof.
  unfold QRCodeExtractor.extractFromBase64.
  destruct (String.eqb (stripDataUri imageBase64) "") eqn:Hempty.
  - exists None. split; [done|]. left. by apply String.eqb_eq.
  - destruct (loadImage (stripDataUri imageBase64)) as [image|e] eqn:Hload;
      cbn [bindE tryCatch].
    + destruct (tryStrategies_first (strategies image))
        as (result & Hrun & Hresult).
      exists result. rewrite Hrun. split; [done|].
      destruct result as [url|].
      * destruct Hresult as (i & Hi & Hbefore). split.
        -- apply (strategies_valid image (Ok (Some url))); [|done].
           eapply list_elem_of_lookup_2, Hi.
        -- exists image, i. auto.
      * right. right. exists image. auto.
    + exists None. split; [done|]. right. left. eauto.
Qed.

End Chain.

(** A flyer whose code is only read after the grey-scale conversion: the
    first three variants find nothing, the fourth yields the URL. *)
Example extractFromBase64_grayscale :
  let jsQR := fun (imageData : string) (_ : Inversion) =>
    if String.eqb imageData "gray"
    then Ok (Some " https://tickets.example.com/jazz ") else Ok None in
  let urlProtocol := fun url : string =>
    if Str.includes url "https://" then Ok "https:"
    else Throw "Invalid URL" in
  extractFromBase64 unit string (fun _ => Ok tt) (fun _ => 800) (fun _ => 600)
    (fun _ _ _ => Ok "plain") (fun _ _ => Ok "region")
    (fun _ => Ok "gray") (fun _ => Ok "contrast") jsQR urlProtocol
    "data:image/jpeg;base64,/9j/4AAQSkZJRg" =
  Ok (Some "https://tickets.example.com/jazz").
Proof. vm_compute. reflexivity. Qed.

(** A corrupt image: [loadImage] throws, the decoder answers [null]. *)
Example extractFromBase64_corrupt :
  extractFromBase64 unit string (fun _ => Throw "Unsupported image type")
    (fun _ => 0) (fun _ => 0) (fun _ _ _ => Ok "") (fun _ _ => Ok "")
    (fun _ => Ok "") (fun _ => Ok "") (fun _ _ => Ok None)
    (fun _ => Throw "Invalid URL") "not-an-image" = Ok None.
Proof. vm_compute. reflexivity. Qed.

End DecoderSpec.

(** ** Media ingestor *)

Module IngestSpec.
Import Str VideoFrameExtractor.

(** A clip on a plain file server: the download and the audio run work,
    every frame extraction fails. *)
Definition framelessClip : Env :=
  {| download := Ok "temp/video-frames/video-1.mp4";
     probe := Ok 12%Q;
     streamUrl := Throw "unsupported URL";
     frameAt := fun _ => Throw "ffmpeg exited with code 1";
     batchTimedOut := false;
     runAudio := fun _ => Ok "temp/video-frames/audio-2.wav" |}.

Example framelessClip_strategy :
  strategyFor "https://cdn.example.com/promo.mp4" = Download.
Proof. vm_compute. reflexivity. Qed.

(** C4, at the failing input.  The ingestor writes the audio file, finds
    no frame and throws; the route's [catch] falls back to the metadata
    text.  Afterwards the audio file is still in the temp directory and no
    clean-up call was made for it: the only release was the video
    file's. *)
Theorem frameless_clip_leaks_audio :
  let url := "https://cdn.example.com/promo.mp4" in
  let ingest := extractFrames framelessClip url 5 true emptyWorld in
  let request :=
    videoRequest framelessClip url (Settled (Ok "doors at seven"))
      emptyWorld in
  fst ingest =
    Throw ("Failed to extract video frames: " +:+ noFrames) /\
  fst request = Ok None /\
  elements (disk (snd request)) = ["temp/video-frames/audio-2.wav"] /\
  cleanupCalls (snd request) = ["temp/video-frames/video-1.mp4"].
Proof. vm_compute. auto. Qed.

(** Where the ingestor returns, the transcription track releases the audio
    file: once when [transcribe] settles before the timer. *)
Lemma transcriptionCleanup_releases path outcome world :
  path <> "" ->
  let after :=
    snd (transcriptionCleanup (Some path) (Settled outcome) world) in
  disk after = disk world ∖ {[path]} /\
  cleanupCalls after = cleanupCalls world ++ [path].
Proof.
  intros Hpath. unfold transcriptionCleanup. cbn [truthy].
  apply String.eqb_neq in Hpath. rewrite Hpath. cbn [negb].
  by destruct outcome.
Qed.

(** When the timer wins and [transcribe] still fulfils later, the release
    is called a second time; the file is gone by then. *)
(** The clean-up calls do not change what the track hands to stage 3. *)
Lemma transcriptionCleanup_result audio run world :
  fst (transcriptionCleanup audio run world) =
    Ok (ExtractRoute.transcriptionTrack audio (raced run)).
Proof.
  unfold transcriptionCleanup, ExtractRoute.transcriptionTrack.
  destruct audio as [path|]; [|done].
  destruct (truthy (Some path)); [|done].
  destruct run as [[text|e]|[[text|e]|]]; done.
Qed.

Example transcriptionCleanup_after_timeout :
  let world := {| disk := {["temp/video-frames/audio-2.wav"]};
                  cleanupCalls := []; audioRuns := [] |} in
  let after :=
    snd (transcriptionCleanup (Some "temp/video-frames/audio-2.wav")
           (TimedOut (Some (Ok "late"))) world) in
  elements (disk after) = [] /\
  cleanupCalls after =
    ["temp/video-frames/audio-2.wav"; "temp/video-frames/audio-2.wav"].
Proof. vm_compute. auto. Qed.

(** *** The audio run of each strategy *)

(** A five-minute TikTok clip: download, probe, frames and audio all
    work. *)
Definition tiktokClip : Env :=
  {| download := Ok "temp/video-frames/video-1.mp4";
     probe := Ok 300%Q;
     streamUrl := Ok "https://v16.tiktokcdn.com/stream";
     frameAt := fun _ => Ok (Some "data:image/jpeg;base64,/9j/4AAQ");
     batchTimedOut := false;
     runAudio := fun _ => Ok "temp/video-frames/audio-2.wav" |}.

(** The ffmpeg audio runs logged once a computation has run. *)
Definition runsAfter {A} (m : M A) (world : World) : list AudioCommand :=
  audioRuns (snd (m world)).

Lemma runsAfter_rethrow {A} (body : M A) (wrap : string -> string) world :
  runsAfter (tryCatchM body (fun e => throw (wrap e))) world =
    runsAfter body world.
Proof.
  unfold runsAfter, tryCatchM, throw. by destruct (body world) as [[v|e] w].
Qed.

Lemma runsAfter_cleanup_rethrow {A} (body : M A) path world :
  runsAfter
    (tryCatchM body (fun e => bindM (cleanupFile path) (fun _ => throw e)))
    world = runsAfter body world.
Proof.
  unfold runsAfter, tryCatchM, bindM, cleanupFile, throw.
  by destruct (body world) as [[v|e] w].
Qed.

Lemma runsAfter_lift {A B} (outcome : Exc A) (k : A -> M B) world :
  runsAfter (bindM (lift outcome) k) world =
    match outcome with
    | Ok v => runsAfter (k v) world
    | Throw _ => audioRuns world
    end.
Proof. unfold runsAfter, bindM, lift. by destruct outcome. Qed.

Lemma runsAfter_writing {A} (outcome : Exc string) (k : string -> M A) world :
  runsAfter (bindM (writing outcome) k) world =
    match outcome with
    | Ok path =>
        runsAfter (k path)
          {| disk := {[path]} ∪ disk world;
             cleanupCalls := cleanupCalls world;
             audioRuns := audioRuns world |}
    | Throw _ => audioRuns world
    end.
Proof. unfold runsAfter, bindM, writing. by destruct outcome. Qed.

Lemma runsAfter_finish fs audio d world :
  runsAfter (finish fs audio d) world = audioRuns world.
Proof. unfold runsAfter. by destruct fs. Qed.

Lemma runsAfter_cleanup_finish path fs audio d world :
  runsAfter (bindM (cleanupFile path) (fun _ => finish fs audio d)) world =
    audioRuns world.
Proof.
  unfold runsAfter, bindM, cleanupFile. by destruct fs.
Qed.

Lemma runsAfter_tryAudio {A} env command (k : option string -> M A) world :
  (forall audio w, runsAfter (k audio) w = audioRuns w) ->
  runsAfter (bindM (tryAudio env true command) k) world =
    audioRuns world ++ [command].
Proof.
  intros Hk. unfold runsAfter at 1, bindM at 1.
  unfold tryAudio, tryCatchM, bindM, starting, writing, ret. cbn [fst snd].
  destruct (runAudio env command) as [path|e]; apply Hk.
Qed.


(** C7, at the failing input.  For a TikTok URL (download-first strategy)
    and for a plain file URL (download strategy) the one ffmpeg audio run
    is mono 16 kHz PCM but has no duration limit: the track covers the
    whole clip, here 300 seconds.  The stream strategy limits its run to
    120 seconds. *)
Theorem download_audio_unbounded :
  let run url := audioRuns (snd (extractFrames tiktokClip url 5 true
                                   emptyWorld)) in
  strategyFor "https://www.tiktok.com/@venue/video/7301" = DownloadFirst /\
  run "https://www.tiktok.com/@venue/video/7301" =
    [ {| audioCodec := "pcm_s16le"; audioFrequency := 16000;
         audioChannels := 1; durationLimit := None; noVideo := true |} ] /\
  strategyFor "https://cdn.example.com/promo.mp4" = Download /\
  run "https://cdn.example.com/promo.mp4" =
    [ {| audioCodec := "pcm_s16le"; audioFrequency := 16000;
         audioChannels := 1; durationLimit := None; noVideo := true |} ] /\
  strategyFor "https://youtu.be/dQw4w9WgXcQ" = Stream /\
  run "https://youtu.be/dQw4w9WgXcQ" =
    [ {| audioCodec := "pcm_s16le"; audioFrequency := 16000;
         audioChannels := 1; durationLimit := Some 120; noVideo := true |} ].
Proof. vm_compute. auto 10. Qed.

End IngestSpec.

(** ** Place resolution *)

Module PlacesSpec.
Import Str PlacesResolver.

Section Cache.

Variable findPlaceFromText : string -> string -> Exc (option (list Candidate)).

Abbreviation resolve := (resolve findPlaceFromText).

(** A hit or a stored answer: either way the entry of the query holds the
    answer afterwards. *)
Lemma resolve_found now later query regionCode self result self' :
  resolve now later query regionCode self = (Ok (Some result), self') ->
  exists timestamp,
    cache self' !! query = Some (result, timestamp) /\
    (timestamp = later \/ now - timestamp < cacheTTL).
Proof.
  unfold PlacesResolver.resolve.
  destruct (cache self !! query) as [[cached timestamp]|] eqn:Hc.
  - destruct (now - timestamp <? cacheTTL) eqn:Hfresh.
    + intros [= <- <-]. exists timestamp. split; [done|].
      right. by apply Z.ltb_lt.
    + destruct (findPlaceFromText query regionCode) as [[[|c cs]|]|];
        try (by intros [=]).
      intros [= <- <-]. exists later. cbn [cache].
      by rewrite lookup_insert_eq; auto.
  - destruct (findPlaceFromText query regionCode) as [[[|c cs]|]|];
      try (by intros [=]).
    intros [= <- <-]. exists later. cbn [cache].
    by rewrite lookup_insert_eq; auto.
Qed.

(** X1. Cache round trip.  Once [resolve] has returned a place for a query,
    every later [resolve] of that query within 24 hours of the entry's
    timestamp returns the same place, sends no request and leaves the
    resolver as it is; the region code plays no part. *)
Theorem resolve_round_trip now later query regionCode self result self' :
  resolve now later query regionCode self = (Ok (Some result), self') ->
  exists timestamp,
    cache self' !! query = Some (result, timestamp) /\
    forall now' later' regionCode',
      now' - timestamp < cacheTTL ->
      resolve now' later' query regionCode' self' = (Ok (Some result), self').
Proof.
  intros H. apply resolve_found in H as (timestamp & Hc & _).
  exists timestamp. split; [done|].
  intros now' later' regionCode' Hfresh. unfold PlacesResolver.resolve.
  rewrite Hc. apply Z.ltb_lt in Hfresh. by rewrite Hfresh.
Qed.

(** X2. Failures are not cached.  [resolve] never throws; when it returns
    [null] it has sent exactly one request and the cache is unchanged. *)
Theorem resolve_null_not_cached now later query regionCode self :
  (exists answer,
     fst (resolve now later query regionCode self) = Ok answer) /\
  (fst (resolve now later query regionCode self) = Ok None ->
   cache (snd (resolve now later query regionCode self)) = cache self /\
   requests (snd (resolve now later query regionCode self)) =
     requests self ++ [(query, regionCode)]).
Proof.
  unfold PlacesResolver.resolve.
  destruct (match cache self !! query with
            | Some (result, timestamp) =>
                if now - timestamp <? cacheTTL then Some result else None
            | None => None
            end) as [hit|].
  - split; [eauto|]. by intros [=].
  - destruct (findPlaceFromText query regionCode) as [[[|c cs]|]|];
      cbn [fst snd]; (split; [eauto|]); try done.
Qed.

(** X3. [resolve] writes no entry but its own query's. *)
Theorem resolve_other_entries now later query regionCode self other :
  other <> query ->
  cache (snd (resolve now later query regionCode self)) !! other =
    cache self !! other.
Proof.
  intros Hne. unfold PlacesResolver.resolve.
  destruct (match cache self !! query with
            | Some (result, timestamp) =>
                if now - timestamp <? cacheTTL then Some result else None
            | None => None
            end) as [hit|]; [done|].
  destruct (findPlaceFromText query regionCode) as [[[|c cs]|]|];
    cbn [fst snd cache]; try done.
  by rewrite lookup_insert_ne.
Qed.

End Cache.

(** The round trip on the Fox Theatre: the second lookup is answered from
    the cache although the service is down and another region is asked. *)
Lemma resolve_round_trip_witness :
  let fox := {| place_id := "ChIJfox"; formatted_address := None;
                geometry := {| lat := 33.7725; lng := (-84.3858)%Q |};
                candidateName := Some "Fox Theatre" |} in
  let up := fun _ _ : string => Ok (Some [fox]) in
  let first :=
    PlacesResolver.resolve up 1000 1200 "Fox Theatre" "US"
      {| cache := ∅; requests := [] |} in
  exists result timestamp,
    fst first = Ok (Some result) /\
    cache (snd first) !! "Fox Theatre" = Some (result, timestamp) /\
    forall now' later' regionCode',
      now' - timestamp < cacheTTL ->
      PlacesResolver.resolve up now' later' "Fox Theatre" regionCode'
        (snd first) = (Ok (Some result), snd first).
Proof.
  intros fox up first.
  destruct (resolve_round_trip up 1000 1200 "Fox Theatre" "US"
              {| cache := ∅; requests := [] |}
              {| placeId := "ChIJfox"; formattedAddress := "Fox Theatre";
                 location := {| lat := 33.7725; lng := (-84.3858)%Q |};
                 name := Some "Fox Theatre" |}
              (snd first))
    as (timestamp & Hc & Hnext); [reflexivity|].
  eexists _, timestamp. split; [reflexivity|]. split; [exact Hc|exact Hnext].
Defined.

Lemma resolve_other_entries_witness :
  cache (snd (PlacesResolver.resolve (fun _ _ => Throw "timeout") 5 6
                "Fox Theatre" "US" {| cache := ∅; requests := [] |}))
    !! "Cafe Luna" = (∅ : gmap string (PlaceResult * Z)) !! "Cafe Luna".
Proof.
  apply (resolve_other_entries (fun _ _ => Throw "timeout") 5 6 "Fox Theatre"
           "US" {| cache := ∅; requests := [] |} "Cafe Luna").
  discriminate.
Defined.

(** *** Venue types *)

Lemma firstEntry_value lowerType entries value :
  firstEntry lowerType entries = Some value -> value ∈ entries.*2.
Proof.
  induction entries as [|[key v] rest IH]; simpl; [done|].
  destruct (includes lowerType key).
  - intros [= ->]. apply elem_of_cons. by left.
  - intros H. apply elem_of_cons. right. auto.
Qed.

Lemma lowerChar_idempotent c : lowerChar (lowerChar c) = lowerChar c.
Proof. destruct c as [[] [] [] [] [] [] [] []]; vm_compute; reflexivity. Qed.

Lemma toLowerCase_idempotent s : toLowerCase (toLowerCase s) = toLowerCase s.
Proof.
  unfold toLowerCase, chars, ofChars.
  rewrite list_ascii_of_string_of_list_ascii, map_map.
  f_equal. apply map_ext. intros c. apply lowerChar_idempotent.
Qed.

(** X4. [getPlaceType] always answers with a Places type of its table, and an
    unknown venue type gets "establishment"; upper and lower case make no
    difference. *)
Theorem getPlaceType_range venueType :
  getPlaceType venueType ∈
    [ "movie_theater"; "restaurant"; "establishment"; "stadium"; "bar";
      "cafe"; "lodging"; "museum"; "park"; "gym" ] /\
  getPlaceType (toLowerCase venueType) = getPlaceType venueType /\
  (Forall (fun entry => includes (toLowerCase venueType) entry.1 = false)
     typeMap ->
   getPlaceType venueType = "establishment").
Proof.
  split; [|split].
  - unfold getPlaceType.
    destruct (firstEntry (toLowerCase venueType) typeMap) as [value|] eqn:H.
    + apply firstEntry_value in H. revert H. generalize value.
      apply Forall_forall.
      apply (bool_decide_unpack _). vm_compute. exact I.
    + apply (bool_decide_unpack _). vm_compute. exact I.
  - unfold getPlaceType. by rewrite toLowerCase_idempotent.
  - intros Hnone. unfold getPlaceType.
    assert (forall entries,
              Forall (fun entry =>
                        includes (toLowerCase venueType) entry.1 = false)
                entries ->
              firstEntry (toLowerCase venueType) entries = None) as Hfirst.
    { induction 1 as [|[key v] rest Hk _ IH]; simpl; [done|].
      simpl in Hk. by rewrite Hk. }
    by rewrite Hfirst.
Qed.

(** X5. A venue type that mentions a movie, a cinema or a film is searched as
    "movie_theater", whatever else it mentions: those keys come first, so
    "movie theater" is not caught by the later "theater" entry. *)
Theorem getPlaceType_movie venueType :
  includes (toLowerCase venueType) "movie" ||
  includes (toLowerCase venueType) "cinema" ||
  includes (toLowerCase venueType) "film" = true ->
  getPlaceType venueType = "movie_theater".
Proof.
  intros H. unfold getPlaceType, typeMap. cbn [firstEntry].
  destruct (includes (toLowerCase venueType) "movie theater"); [done|].
  destruct (includes (toLowerCase venueType) "movie"); [done|].
  destruct (includes (toLowerCase venueType) "cinema"); [done|].
  destruct (includes (toLowerCase venueType) "movie trailer"); [done|].
  destruct (includes (toLowerCase venueType) "film"); [done|].
  done.
Qed.

Lemma getPlaceType_movie_witness :
  getPlaceType "AMC Movie Theater" = "movie_theater".
Proof. apply (getPlaceType_movie "AMC Movie Theater"). reflexivity. Defined.

(** X6. From event type to Places type.  With no venue type extracted, the
    venue type the route infers from the event type is searched as:
    movie, film, cinema: "movie_theater"; else concert, music:
    "establishment"; else sport: "stadium"; else restaurant, dining:
    "restaurant"; any other event type starts no search. *)
Theorem inferred_venue_place_type (extracted : Event.DraftEvent) :
  truthy (option_map trim (Event.venueType extracted)) = false ->
  truthy (Event.eventType extracted) = true ->
  let lower := toLowerCase (orEmpty (Event.eventType extracted)) in
  let search := RouteVenue.venueTypeToSearch extracted in
  if includes lower "movie" || includes lower "film" ||
     includes lower "cinema"
  then option_map getPlaceType search = Some "movie_theater"
  else if includes lower "concert" || includes lower "music"
  then option_map getPlaceType search = Some "establishment"
  else if includes lower "sport"
  then option_map getPlaceType search = Some "stadium"
  else if includes lower "restaurant" || includes lower "dining"
  then option_map getPlaceType search = Some "restaurant"
  else truthy search = false.
Proof.
  intros Hv He. cbv zeta. unfold RouteVenue.venueTypeToSearch.
  rewrite Hv, He. cbn [negb andb].
  repeat match goal with
         | |- context [if ?b then _ else _] =>
             destruct b; [vm_compute; reflexivity|]
         end.
  exact Hv.
Qed.

Lemma inferred_venue_place_type_witness :
  option_map getPlaceType
    (RouteVenue.venueTypeToSearch
       {| Event.title := Some "Dune"; Event.description := None;
          Event.date := Some ""; Event.time := None; Event.endTime := None;
          Event.location := None; Event.eventType := Some "Movie Premiere";
          Event.venueType := None |}) = Some "movie_theater".
Proof.
  apply (inferred_venue_place_type
           {| Event.title := Some "Dune"; Event.description := None;
              Event.date := Some ""; Event.time := None;
              Event.endTime := None; Event.location := None;
              Event.eventType := Some "Movie Premiere";
              Event.venueType := None |}); reflexivity.
Defined.

End PlacesSpec.

(** ** What the ingestor hands on *)

Module IngestResultSpec.
Import Str FrameSampler FrameSamplerSpec VideoFrameExtractor.

(** The sampler's output is strictly ascending and at most 15 long for
    every duration; for a positive duration it lies in [0, duration). *)
Lemma timestampsFor_sorted d frameCount :
  StronglySorted Z.lt (timestampsFor d frameCount) /\
  (length (timestampsFor d frameCount) <= 15)%nat.
Proof.
  unfold timestampsFor, calculateSmartTimestamps.
  destruct (earlyLoop earlyFuel 5 _ d [0]) as [early|]; simpl;
    [|split; [constructor|lia]].
  split.
  - apply strict_take, sorted_NoDup_strict; [apply sortAscending_sorted|].
    rewrite sortAscending_perm. apply NoDup_setOf.
  - rewrite length_take. lia.
Qed.

Lemma timestampsFor_inRange d frameCount :
  (0 < d)%Q -> Forall (inRange d) (timestampsFor d frameCount).
Proof.
  intros Hd. unfold timestampsFor, calculateSmartTimestamps.
  destruct (earlyLoop earlyFuel 5 _ d [0]) as [early|] eqn:He; simpl;
    [|constructor].
  destruct (raw_timestamps d frameCount early Hd He) as [_ Hr].
  cbv zeta in Hr. apply Forall_take, Forall_forall. intros z Hz.
  rewrite Forall_forall in Hr. apply Hr.
  rewrite sortAscending_perm in Hz. by apply elem_of_setOf in Hz as [Hz _].
Qed.

Lemma collectFrames_from env timestamps frame :
  frame ∈ collectFrames env timestamps ->
  timestamp frame ∈ timestamps /\ base64 frame <> "".
Proof.
  unfold collectFrames. rewrite list_elem_of_omap. intros (t & Ht & Hf).
  destruct (frameAt env t) as [[data|]|]; try done.
  destruct (truthy (Some data)) eqn:Hd; [|done].
  injection Hf as <-. simpl. split; [done|].
  simpl in Hd. apply negb_true_iff in Hd. by apply String.eqb_neq.
Qed.

Lemma collectFrames_sorted env timestamps :
  StronglySorted Z.lt timestamps ->
  StronglySorted Z.lt (timestamp <$> collectFrames env timestamps).
Proof.
  induction 1 as [|t rest Hs IH Ht]; [constructor|].
  unfold collectFrames. cbn [omap list_omap].
  fold (collectFrames env rest).
  destruct (frameAt env t) as [[data|]|]; try exact IH.
  destruct (truthy (Some data)); [|exact IH].
  cbn [fmap list_fmap timestamp]. constructor; [exact IH|].
  apply Forall_forall. intros z Hz.
  apply list_elem_of_fmap in Hz as (frame & -> & Hf).
  apply collectFrames_from in Hf as [Hf _].
  rewrite Forall_forall in Ht. by apply Ht.
Qed.

Lemma collectFrames_length env timestamps :
  (length (collectFrames env timestamps) <= length timestamps)%nat.
Proof.
  induction timestamps as [|t rest IH]; [done|].
  unfold collectFrames. cbn [omap list_omap]. fold (collectFrames env rest).
  destruct (frameAt env t) as [[data|]|]; simpl; try lia.
  destruct (negb (String.eqb data "")); simpl; lia.
Qed.

(** Inversion of the monadic building blocks. *)
Lemma bindM_Ok {A B} (m : M A) (k : A -> M B) w r w' :
  bindM m k w = (Ok r, w') ->
  exists v w1, m w = (Ok v, w1) /\ k v w1 = (Ok r, w').
Proof.
  unfold bindM. destruct (m w) as [[v|e] w1]; [eauto|done].
Qed.

Lemma rethrow_Ok {A} (body : M A) (handler : string -> M A) w r w' :
  (forall e w1, fst (handler e w1) = Ok r -> False) ->
  tryCatchM body handler w = (Ok r, w') -> body w = (Ok r, w').
Proof.
  intros Hh. unfold tryCatchM. destruct (body w) as [[v|e] w1]; [done|].
  intros H. exfalso. apply (Hh e w1). by rewrite H.
Qed.

Lemma finish_Ok fs audio d w r w' :
  finish fs audio d w = (Ok r, w') ->
  fs <> [] /\ r = {| frames := fs; audioPath := audio; duration := d |}.
Proof. destruct fs; [done|]. by intros [= <- <-]. Qed.

Lemma lift_Ok {A} (outcome : Exc A) w v w1 :
  lift outcome w = (Ok v, w1) -> outcome = Ok v.
Proof. unfold lift. by intros [= ->]. Qed.

(** What a returned extraction is made of. *)
Lemma extractFrames_Ok env videoUrl frameCount extractAudio w result w' :
  extractFrames env videoUrl frameCount extractAudio w = (Ok result, w') ->
  probe env = Ok (duration result) /\
  frames result <> [] /\
  frames result =
    collectFrames env (timestampsFor (duration result) frameCount).
Proof.
  unfold extractFrames. intros H.
  apply rethrow_Ok in H; [|done].
  destruct (strategyFor videoUrl).
  - unfold extractFromDownloadedVideo in H.
    apply bindM_Ok in H as (videoPath & w1 & _ & H).
    apply rethrow_Ok in H; [|intros e w2; unfold bindM, cleanupFile; done].
    apply bindM_Ok in H as (d & w2 & Hp & H). apply lift_Ok in Hp.
    apply bindM_Ok in H as (audio & w3 & _ & H).
    apply bindM_Ok in H as ([] & w4 & _ & H).
    apply finish_Ok in H as [Hne ->]. done.
  - unfold extractFromStream in H.
    apply rethrow_Ok in H; [|done].
    apply bindM_Ok in H as (d & w2 & Hp & H). apply lift_Ok in Hp.
    apply bindM_Ok in H as (u & w3 & _ & H).
    apply bindM_Ok in H as (audio & w4 & _ & H).
    apply finish_Ok in H as [Hne ->]. cbn [frames duration] in *.
    by destruct (batchTimedOut env).
  - apply bindM_Ok in H as (videoPath & w1 & _ & H).
    apply bindM_Ok in H as (d & w2 & Hp & H). apply lift_Ok in Hp.
    destruct (Qltb 600 d).
    + apply bindM_Ok in H as ([] & w3 & _ & H). done.
    + apply bindM_Ok in H as (audio & w3 & _ & H).
      apply bindM_Ok in H as ([] & w4 & _ & H).
      apply finish_Ok in H as [Hne ->]. done.
Qed.



(** *** The downloaded video file *)

Lemma cleaned_after_audio env extractAudio p fs d
    (handler : string -> M VideoExtractionResult) w :
  (forall e w1, disk (snd (handler e w1)) = disk w1 ∖ {[p]} \/
                disk (snd (handler e w1)) = disk w1) ->
  p ∉ disk (snd (tryCatchM
                   (bindM (tryAudio env extractAudio audioFromFile)
                      (fun audio => bindM (cleanupFile p)
                                      (fun _ => finish fs audio d)))
                   handler w)).
Proof.
  intros Hh. unfold tryCatchM, bindM at 1.
  destruct (tryAudio env extractAudio audioFromFile w) as [[audio|e] w1]
    eqn:Ha.
  - unfold bindM, cleanupFile. destruct fs as [|frame fs]; cbn [finish].
    + unfold throw. cbn [fst snd].
      destruct (Hh noFrames
                  {| disk := disk w1 ∖ {[p]};
                     cleanupCalls := cleanupCalls w1 ++ [p];
                     audioRuns := audioRuns w1 |}) as [-> | ->];
        cbn [disk]; set_solver.
    + unfold ret. cbn [snd disk]. set_solver.
  - exfalso. revert Ha. unfold tryAudio. destruct extractAudio; [|done].
    unfold tryCatchM, bindM, starting, writing, ret.
    by destruct (runAudio env audioFromFile).
Qed.

(** X8. On the download-first strategy the downloaded video file is gone from
    the temp directory when [extractFrames] settles, whatever failed after
    the download; on the generic download strategy it is gone whenever the
    duration probe succeeded. *)
Theorem downloaded_video_removed env videoUrl frameCount extractAudio w
    videoPath :
  download env = Ok videoPath ->
  strategyFor videoUrl = DownloadFirst \/
  (strategyFor videoUrl = Download /\ exists d, probe env = Ok d) ->
  videoPath ∉
    disk (snd (extractFrames env videoUrl frameCount extractAudio w)).
Proof.
  intros Hdl Hs. unfold extractFrames.
  assert (forall (body : M VideoExtractionResult) w0,
            snd (tryCatchM body
                   (fun e => throw ("Failed to extract video frames: " +:+ e))
                   w0) = snd (body w0)) as Hre.
  { intros body w0. unfold tryCatchM, throw.
    by destruct (body w0) as [[v|e] w1]. }
  rewrite Hre. destruct Hs as [-> | [-> [d Hp]]].
  - unfold extractFromDownloadedVideo, bindM at 1, writing. rewrite Hdl.
    unfold tryCatchM at 1, bindM at 1, lift.
    destruct (probe env) as [d|e].
    + apply (cleaned_after_audio env extractAudio videoPath _ d
               (fun e => bindM (cleanupFile videoPath) (fun _ => throw e))).
      intros e w1. left. reflexivity.
    + unfold bindM, cleanupFile, throw. cbn [snd disk]. set_solver.
  - unfold bindM at 1, writing. rewrite Hdl.
    unfold bindM at 1, lift. rewrite Hp.
    destruct (Qltb 600 d).
    + unfold bindM, cleanupFile, throw. cbn [snd disk]. set_solver.
    + pose proof (cleaned_after_audio env extractAudio videoPath
                    (collectFrames env (timestampsFor d frameCount)) d
                    (fun e => throw e)
                    {| disk := {[videoPath]} ∪ disk w;
                       cleanupCalls := cleanupCalls w;
                       audioRuns := audioRuns w |}) as H.
      unfold tryCatchM in H.
      destruct (bindM (tryAudio env extractAudio audioFromFile) _ _)
        as [[v|e] w1]; apply H; intros; by right.
Qed.

Lemma downloaded_video_removed_witness :
  "temp/video-frames/video-1.mp4" ∉
    disk (snd (extractFrames IngestSpec.framelessClip
                 "https://www.tiktok.com/@venue/video/7301" 5 true
                 emptyWorld)).
Proof.
  apply (downloaded_video_removed IngestSpec.framelessClip
           "https://www.tiktok.com/@venue/video/7301" 5 true emptyWorld
           "temp/video-frames/video-1.mp4"); [reflexivity|].
  left. vm_compute. reflexivity.
Defined.

(** *** Strategy and platform name *)

(** X9. The generic download path is taken exactly for the URLs of no known
    platform; a URL that mentions tiktok.com always downloads first; and a
    streamed URL has a platform name other than TikTok. *)
Theorem strategy_and_platform videoUrl :
  (strategyFor videoUrl = DownloadFirst <->
     includes videoUrl "tiktok.com" = true) /\
  (strategyFor videoUrl = Download <->
     getPlatformName videoUrl = "Video Platform") /\
  (strategyFor videoUrl = Stream ->
     getPlatformName videoUrl ∈
       [ "YouTube"; "Instagram"; "Twitter/X"; "Facebook"; "Vimeo";
         "Dailymotion" ]).
Proof.
  unfold strategyFor, getPlatformName, ytDlpSupportedPlatforms.
  cbn [existsb].
  destruct (includes videoUrl "tiktok.com");
    destruct (includes videoUrl "youtube.com");
    destruct (includes videoUrl "youtu.be");
    destruct (includes videoUrl "instagram.com");
    destruct (includes videoUrl "twitter.com");
    destruct (includes videoUrl "x.com");
    destruct (includes videoUrl "facebook.com");
    destruct (includes videoUrl "vimeo.com");
    destruct (includes videoUrl "dailymotion.com");
    cbn [orb andb];
    (split; [split; (done || (intros; discriminate))|]);
    (split; [split; (done || (intros; discriminate))|]);
    intros H; try discriminate H;
    apply (bool_decide_unpack _); vm_compute; exact I.
Qed.

End IngestResultSpec.

(** ** Chunk plan of the transcriber *)

Module ChunkSpec.
Import Promise AudioTranscriber.



(** X11. Audio without length is not sent to the speech service: with a probed
    duration of zero or less there is no chunk and the transcript is
    empty. *)
Theorem transcribeInChunks_empty env duration :
  speechClient env = true ->
  ffprobe env = Ok duration ->
  (duration <= 0)%Q ->
  numChunks duration = 0%nat /\
  transcribeInChunks env [] [] = Some (Ok "").
Proof.
  intros Hc Hp Hd.
  assert (numChunks duration = 0%nat) as Hn.
  { unfold numChunks, chunkDuration.
    set (x := (duration / inject_Z 30)%Q).
    assert (duration == x * 30)%Q as Hx by (unfold x; field).
    assert (Qceiling x <= 0); [|lia].
    change 0 with (Qceiling 0). apply Qceiling_resp_le.
    rewrite Hx in Hd. lra. }
  split; [done|]. unfold transcribeInChunks. rewrite Hc, Hp, Hn. done.
Qed.

Lemma transcribeInChunks_empty_witness :
  let silent := {| speechClient := true; statSize := Ok 44;
                   readAudio := Ok tt; recognize := Throw "empty audio";
                   ffprobe := Ok 0%Q; extractChunk := fun _ _ => Ok tt;
                   recognizeChunk := fun _ => Ok [] |} in
  numChunks 0 = 0%nat /\ transcribeInChunks silent [] [] = Some (Ok "").
Proof.
  intros silent. apply (transcribeInChunks_empty silent 0); reflexivity
    || (vm_compute; discriminate).
Defined.

End ChunkSpec.

(** ** Code decoder: canvas sizes and input forms *)

Module DecoderInputSpec.
Import Str QRCodeExtractor QRCodeInput.

(** X12. Each of the six sub-regions lies inside the image. *)
Theorem regions_inside (Image : Type) (width height : Image -> Z)
    (image : Image) :
  0 <= width image -> 0 <= height image ->
  Forall (fun r => 0 <= x r /\ 0 <= y r /\ 0 <= w r /\ 0 <= h r /\
                   x r + w r <= width image /\ y r + h r <= height image)
    (regions Image width height image).
Proof.
  intros Hw Hh. unfold regions, half, quarter.
  repeat constructor; cbn [x y w h]; Z.div_mod_to_equations; lia.
Qed.

Lemma regions_inside_witness :
  Forall (fun r => 0 <= x r /\ 0 <= y r /\ 0 <= w r /\ 0 <= h r /\
                   x r + w r <= 801 /\ y r + h r <= 599)
    (regions unit (fun _ => 801) (fun _ => 599) tt).
Proof.
  apply (regions_inside unit (fun _ => 801) (fun _ => 599) tt); lia.
Defined.

(** [tryExtractResized] draws the image at [resizedSize]. *)
Lemma tryExtractResized_size (Image ImageData : Type)
    (width height : Image -> Z)
    (drawScaled : Image -> Z -> Z -> Exc ImageData)
    (jsQR : ImageData -> Inversion -> Exc (option string))
    (urlProtocol : string -> Exc string) image maxDimension :
  tryExtractResized Image ImageData width height drawScaled jsQR urlProtocol
    image maxDimension =
  (await imageData :=
     drawScaled image
       (fst (resizedSize (width image) (height image) maxDimension))
       (snd (resizedSize (width image) (height image) maxDimension)) in
   decodeQRCode ImageData jsQR urlProtocol imageData).
Proof.
  unfold tryExtractResized, resizedSize.
  destruct (height image <? width image);
    [destruct (maxDimension <? width image)
    |destruct (maxDimension <? height image)]; reflexivity.
Qed.

Lemma round_below (q : Q) (bound : Z) :
  (0 <= q)%Q -> (q <= inject_Z bound)%Q -> 0 <= round q <= bound.
Proof.
  intros H0 Hb. unfold round. split.
  - change 0 with (Qfloor 0). apply Qfloor_resp_le. lra.
  - assert (Qfloor (q + (1 # 2)) < bound + 1); [|lia].
    rewrite Zlt_Qlt, inject_Z_plus. change (inject_Z 1) with 1%Q.
    pose proof (Qfloor_le (q + (1 # 2))). lra.
Qed.

Lemma ratio_below (a b bound : Z) :
  0 <= a -> a <= b -> 0 < b -> 0 <= bound ->
  (0 <= inject_Z a / inject_Z b * inject_Z bound)%Q /\
  (inject_Z a / inject_Z b * inject_Z bound <= inject_Z bound)%Q.
Proof.
  intros Ha Hab Hb Hbound.
  assert (0 <= inject_Z a)%Q
    by (change 0%Q with (inject_Z 0); by rewrite <- Zle_Qle).
  assert (0 < inject_Z b)%Q
    by (change 0%Q with (inject_Z 0); by rewrite <- Zlt_Qlt).
  assert (0 <= inject_Z bound)%Q
    by (change 0%Q with (inject_Z 0); by rewrite <- Zle_Qle).
  assert (inject_Z a <= inject_Z b)%Q by (by rewrite <- Zle_Qle).
  assert (0 <= inject_Z a / inject_Z b)%Q as Hr0.
  { apply Qle_shift_div_l; [done|]. lra. }
  assert (inject_Z a / inject_Z b <= 1)%Q as Hr1.
  { apply Qle_shift_div_r; [done|]. lra. }
  split.
  - by apply Qmult_le_0_compat.
  - apply Qle_trans with (1 * inject_Z bound)%Q; [|lra].
    by apply Qmult_le_compat_r.
Qed.



(** *** Data URI prefix *)

Lemma stripPrefixChars_app prefix rest :
  stripPrefixChars prefix (prefix ++ rest) = Some rest.
Proof.
  induction prefix as [|c prefix IH]; simpl; [done|].
  by rewrite Ascii.eqb_refl.
Qed.

Lemma dropWord_app word rest :
  forallb isWordChar word = true ->
  dropWord (word ++ ";"%char :: rest) = ";"%char :: rest.
Proof.
  induction word as [|c word IH]; simpl; [done|].
  intros H. apply andb_true_iff in H as [-> H]. auto.
Qed.

(** The prefix [data:image/<type>;base64,] is removed, for every image
    type name made of word characters. *)
Lemma stripDataUri_prefix (mime payload : string) :
  mime <> "" -> forallb isWordChar (chars mime) = true ->
  stripDataUri ("data:image/" +:+ mime +:+ ";base64," +:+ payload) = payload.
Proof.
  intros Hne Hword. unfold stripDataUri.
  rewrite StrSpec.chars_append, stripPrefixChars_app.
  rewrite !StrSpec.chars_append.
  destruct (chars mime) as [|c word] eqn:Hm.
  { exfalso. apply Hne. destruct mime; [done|discriminate Hm]. }
  cbn [app]. simpl in Hword. apply andb_true_iff in Hword as [-> Hword].
  change (chars ";base64,")
    with (";"%char :: chars "base64,").
  cbn [app]. rewrite dropWord_app by done.
  change (";"%char :: chars "base64," ++ chars payload)
    with (chars ";base64," ++ chars payload).
  rewrite stripPrefixChars_app. unfold ofChars, chars.
  apply string_of_list_ascii_of_string.
Qed.

Example stripDataUri_png :
  stripDataUri "data:image/png;base64,iVBORw0KGgo=" = "iVBORw0KGgo=".
Proof. vm_compute. reflexivity. Qed.

Lemma stripPrefixChars_elem prefix : forall l rest c,
  c ∈ prefix -> stripPrefixChars prefix l = Some rest -> c ∈ l.
Proof.
  induction prefix as [|x prefix IH]; intros l rest c Hc.
  - by apply elem_of_nil in Hc.
  - destruct l as [|y l]; cbn [stripPrefixChars]; [done|].
    destruct (Ascii.eqb x y) eqn:E; [|done].
    apply Ascii.eqb_eq in E as <-. intros H.
    apply elem_of_cons in Hc as [->|Hc]; apply elem_of_cons; [by left|].
    right. eauto.
Qed.

Lemma data_prefix_has_colon l rest :
  stripPrefixChars (chars "data:image/") l = Some rest -> ":"%char ∈ l.
Proof.
  apply stripPrefixChars_elem.
  apply (bool_decide_unpack _). vm_compute. exact I.
Qed.

Lemma stripDataUri_no_colon (s : string) :
  Forall (fun c => c <> ":"%char) (chars s) -> stripDataUri s = s.
Proof.
  intros H. unfold stripDataUri.
  destruct (stripPrefixChars (chars "data:image/") (chars s)) as [rest|]
    eqn:Hp; [|done].
  exfalso. apply data_prefix_has_colon in Hp.
  rewrite Forall_forall in H. by apply (H _ Hp).
Qed.

Section Forms.

Variables Image ImageData : Type.
Variable loadImage : string -> Exc Image.
Variable width height : Image -> Z.
Variable drawScaled : Image -> Z -> Z -> Exc ImageData.
Variable drawRegion : Image -> Region -> Exc ImageData.
Variable toGrayscale toHighContrast : ImageData -> Exc ImageData.
Variable jsQR : ImageData -> Inversion -> Exc (option string).
Variable urlProtocol : string -> Exc string.
Variable readFileBase64 : string -> Exc string.

Abbreviation extractFromBase64 :=
  (extractFromBase64 Image ImageData loadImage width height drawScaled
     drawRegion toGrayscale toHighContrast jsQR urlProtocol).
Abbreviation extractFromFile :=
  (extractFromFile Image ImageData loadImage width height drawScaled
     drawRegion toGrayscale toHighContrast jsQR urlProtocol readFileBase64).

Lemma extractFromBase64_same_data a b :
  stripDataUri a = stripDataUri b ->
  extractFromBase64 a = extractFromBase64 b.
Proof. intros H. unfold QRCodeExtractor.extractFromBase64. by rewrite H. Qed.

Lemma extractFromBase64_strips (mime payload : string) :
  mime <> "" -> forallb isWordChar (chars mime) = true ->
  stripDataUri payload = payload ->
  extractFromBase64 ("data:image/" +:+ mime +:+ ";base64," +:+ payload) =
    extractFromBase64 payload.
Proof.
  intros Hne Hword Hplain. apply extractFromBase64_same_data.
  by rewrite stripDataUri_prefix, Hplain.
Qed.

(** X14. With or without the data URI prefix the decoder gives the same
    answer: a payload sent as [data:image/<type>;base64,<payload>] is
    decoded as the bare payload is. *)
Theorem extractFromBase64_prefix_free (mime payload : string) :
  mime <> "" -> forallb isWordChar (chars mime) = true ->
  stripDataUri payload = payload ->
  extractFromBase64 ("data:image/" +:+ mime +:+ ";base64," +:+ payload) =
    extractFromBase64 payload.
Proof. apply extractFromBase64_strips. Qed.

Lemma extractFromBase64_returns imageBase64 :
  exists answer, extractFromBase64 imageBase64 = Ok answer.
Proof.
  unfold QRCodeExtractor.extractFromBase64.
  destruct (String.eqb (stripDataUri imageBase64) ""); [by eexists|].
  destruct (loadImage (stripDataUri imageBase64)) as [image|e];
    cbn [bindE tryCatch]; [|by eexists].
  destruct (DecoderSpec.tryStrategies_first
              (strategies Image ImageData width height drawScaled drawRegion
                 toGrayscale toHighContrast jsQR urlProtocol image))
    as (answer & -> & _).
  by eexists.
Qed.

(** X15. [extractFromFile] never throws: an unreadable file gives [null],
    and a readable one is decoded exactly as its base64 text is by
    [extractFromBase64]. *)
Theorem extractFromFile_as_base64 (imagePath : string) :
  (exists answer, extractFromFile imagePath = Ok answer) /\
  (forall e, readFileBase64 imagePath = Throw e ->
     extractFromFile imagePath = Ok None) /\
  (forall base64, readFileBase64 imagePath = Ok base64 ->
     Forall (fun c => c <> ":"%char) (chars base64) ->
     extractFromFile imagePath = extractFromBase64 base64).
Proof.
  unfold QRCodeInput.extractFromFile. split; [|split].
  - destruct (readFileBase64 imagePath) as [base64|e]; cbn [bindE tryCatch];
      [|by eexists].
    destruct (extractFromBase64_returns
                ("data:image/jpeg;base64," +:+ base64)) as [answer ->].
    by eexists.
  - by intros e ->.
  - intros base64 -> Hplain. cbn [bindE].
    destruct (extractFromBase64_returns
                ("data:image/jpeg;base64," +:+ base64)) as [answer Ha].
    rewrite Ha. cbn [tryCatch]. rewrite <- Ha.
    apply (extractFromBase64_strips "jpeg" base64); [done|done|].
    by apply stripDataUri_no_colon.
Qed.

End Forms.

Lemma extractFromBase64_prefix_free_witness :
  let jsQR := fun (imageData : string) (_ : Inversion) =>
    Ok (Some "https://tickets.example.com/jazz") in
  let urlProtocol := fun _ : string => Ok "https:" in
  QRCodeExtractor.extractFromBase64 unit string (fun _ => Ok tt)
    (fun _ => 800) (fun _ => 600) (fun _ _ _ => Ok "plain")
    (fun _ _ => Ok "region") (fun _ => Ok "gray") (fun _ => Ok "contrast")
    jsQR urlProtocol ("data:image/" +:+ "webp" +:+ ";base64," +:+ "UklGRg==") =
  QRCodeExtractor.extractFromBase64 unit string (fun _ => Ok tt)
    (fun _ => 800) (fun _ => 600) (fun _ _ _ => Ok "plain")
    (fun _ _ => Ok "region") (fun _ => Ok "gray") (fun _ => Ok "contrast")
    jsQR urlProtocol "UklGRg==".
Proof.
  intros jsQR urlProtocol.
  apply (extractFromBase64_prefix_free unit string (fun _ => Ok tt)
           (fun _ => 800) (fun _ => 600) (fun _ _ _ => Ok "plain")
           (fun _ _ => Ok "region") (fun _ => Ok "gray")
           (fun _ => Ok "contrast") jsQR urlProtocol "webp" "UklGRg==");
    [discriminate|reflexivity|reflexivity].
Defined.

End DecoderInputSpec.

(** ** Normalised times and events *)

Module NormalizeSpec.
Import Str GeminiExtractor GeminiSpec.

(** [time] begins like YYYY-MM-DD or like MM/DD/YYYY. *)
Definition dateShaped (time : string) : bool :=
  testPrefix isoDate time || testPrefix slashDate time.

Lemma digit_not_space c : isDigit c = true -> isWhiteSpace c = false.
Proof.
  intros H. apply isDigit_cases in H. revert c H. apply Forall_forall.
  apply (bool_decide_unpack _). vm_compute. exact I.
Qed.

Lemma hhmmss_inv l :
  matchPrefix hhmmss l = Some [] ->
  exists a b c d e f,
    l = [a; b; ":"%char; c; d; ":"%char; e; f] /\
    isDigit a = true /\ isDigit f = true.
Proof.
  unfold hhmmss.
  destruct l as [|a l]; cbn [matchPrefix]; [done|].
  destruct (isDigit a) eqn:Ha; [|done].
  destruct l as [|b l]; cbn [matchPrefix]; [done|].
  destruct (isDigit b); [|done].
  destruct l as [|x l]; cbn [matchPrefix]; [done|].
  destruct (Ascii.eqb ":" x) eqn:Hx; [|done]. apply Ascii.eqb_eq in Hx as <-.
  destruct l as [|c l]; cbn [matchPrefix]; [done|].
  destruct (isDigit c); [|done].
  destruct l as [|d l]; cbn [matchPrefix]; [done|].
  destruct (isDigit d); [|done].
  destruct l as [|y l]; cbn [matchPrefix]; [done|].
  destruct (Ascii.eqb ":" y) eqn:Hy; [|done]. apply Ascii.eqb_eq in Hy as <-.
  destruct l as [|e l]; cbn [matchPrefix]; [done|].
  destruct (isDigit e); [|done].
  destruct l as [|f l]; cbn [matchPrefix]; [done|].
  destruct (isDigit f) eqn:Hf; [|done].
  intros [= ->]. by exists a, b, c, d, e, f.
Qed.

Lemma ofChars_chars s : ofChars (chars s) = s.
Proof. apply string_of_list_ascii_of_string. Qed.

(** X16. A normalised time is a fixed point: [normalizeTime] returns every
    string of the shape HH:MM:SS unchanged. *)
Theorem normalizeTime_fixed_point (time : string) :
  testWhole hhmmss time = true -> normalizeTime time = Ok time.
Proof.
  intros Hshape. pose proof Hshape as Hinv. unfold testWhole in Hinv.
  destruct (matchPrefix hhmmss (chars time)) as [[|x rest]|] eqn:Hm;
    try done.
  apply hhmmss_inv in Hm as (a & b & c & d & e & f & Hl & Ha & Hf).
  assert (trim time = time) as Htrim.
  { unfold trim. rewrite Hl. unfold trimChars.
    cbn [trimStartChars]. rewrite (digit_not_space a Ha).
    cbn [rev app trimStartChars]. rewrite (digit_not_space f Hf).
    cbn [rev app]. rewrite <- Hl. apply ofChars_chars. }
  unfold normalizeTime. rewrite Htrim.
  assert (String.eqb time "" = false) as ->.
  { apply String.eqb_neq. intros ->. by vm_compute in Hl. }
  assert (testPrefix isoDate time || testPrefix slashDate time = false) as ->.
  { unfold testPrefix, isoDate, slashDate. rewrite Hl. cbn [matchPrefix].
    destruct (isDigit a); destruct (isDigit b); reflexivity. }
  by rewrite Hshape.
Qed.

Lemma normalizeTime_fixed_point_witness :
  normalizeTime "19:30:00" = Ok "19:30:00".
Proof. apply (normalizeTime_fixed_point "19:30:00"). reflexivity. Defined.

Lemma hhmm_not_date t :
  testWhole hhmm t = true -> dateShaped (t +:+ ":00") = false.
Proof.
  unfold testWhole, dateShaped, testPrefix. rewrite StrSpec.chars_append.
  unfold hhmm, isoDate, slashDate.
  destruct (chars t) as [|a [|b [|c l]]]; cbn [matchPrefix app]; try done;
    destruct (isDigit a); try done; destruct (isDigit b); try done.
  destruct (Ascii.eqb ":" c) eqn:Hc; [|done].
  apply Ascii.eqb_eq in Hc as <-. reflexivity.
Qed.

Lemma amPmTime_not_date_all :
  forallb (fun h =>
    forallb (fun mins =>
      forallb (fun pm =>
        negb (dateShaped
                (amPmTime {| hourDigits := h; minuteDigits := mins;
                             isPm := pm |})))
        [true; false])
      (None :: (Some <$> twoDigits)))
    oneOrTwoDigits = true.
Proof. vm_compute. reflexivity. Qed.

Lemma amPmTime_not_date m : wellFormed m -> dateShaped (amPmTime m) = false.
Proof.
  destruct m as [h mins pm]. intros [Hh Hm]. simpl in Hh, Hm.
  pose proof amPmTime_not_date_all as Hall.
  rewrite forallb_forall in Hall.
  specialize (Hall h (proj1 (list_elem_of_In _ _) Hh)).
  rewrite forallb_forall in Hall.
  assert (In mins (None :: (Some <$> twoDigits))) as Hin.
  { apply list_elem_of_In. destruct mins as [digits|].
    - apply elem_of_cons. right. by apply list_elem_of_fmap_2.
    - apply elem_of_cons. by left. }
  specialize (Hall mins Hin). rewrite forallb_forall in Hall.
  assert (In pm [true; false]) as Hpm by (destruct pm; simpl; auto).
  specialize (Hall pm Hpm). by apply negb_true_iff in Hall.
Qed.

Lemma formatTime_not_date_all :
  forallb (fun hours =>
    forallb (fun minutes => negb (dateShaped (formatTime hours minutes)))
      (seqZ 0 60))
    (seqZ 0 24) = true.
Proof. vm_compute. reflexivity. Qed.

Lemma formatTime_not_date hours minutes :
  inRangeZ 0 23 (Some hours) = true -> inRangeZ 0 59 (Some minutes) = true ->
  dateShaped (formatTime hours minutes) = false.
Proof.
  unfold inRangeZ. rewrite !andb_true_iff, !Z.leb_le. intros Hh Hm.
  pose proof formatTime_not_date_all as Hall.
  rewrite forallb_forall in Hall.
  assert (In hours (seqZ 0 24)) as Hin
    by (apply list_elem_of_In, elem_of_seqZ; lia).
  specialize (Hall hours Hin). rewrite forallb_forall in Hall.
  apply negb_true_iff, Hall. apply list_elem_of_In, elem_of_seqZ. lia.
Qed.

Lemma normalizeTime_not_date time result :
  normalizeTime time = Ok result -> dateShaped result = false.
Proof.
  unfold normalizeTime. destruct (String.eqb time ""); [done|].
  destruct (testPrefix isoDate (trim time) || testPrefix slashDate (trim time))
    eqn:Hdate; [done|].
  destruct (testWhole hhmmss (trim time)); [by intros [= <-]|].
  destruct (testWhole hhmm (trim time)) eqn:H2.
  { intros [= <-]. by apply hhmm_not_date. }
  destruct (amPmSearch (chars (trim time))) as [m|] eqn:Hs.
  - intros [= <-]. change (formatTime _ _) with (amPmTime m).
    apply amPmSearch_wellFormed in Hs. by apply amPmTime_not_date.
  - destruct (includes (trim time) ":"); [|done].
    destruct (split (trim time) ":") as [|part0 [|part1 parts]]; try done.
    destruct (parseInt part0) as [hours|]; [|done].
    destruct (inRangeZ 0 23 (Some hours)) eqn:Hh; [|done].
    destruct (parseInt part1) as [minutes|]; [|done].
    destruct (inRangeZ 0 59 (Some minutes)) eqn:Hm; [|done].
    intros [= <-]. by apply formatTime_not_date.
Qed.

Section Validate.

Variable localDate : Z -> Z -> Z -> option (Z * Z * Z).
Variable parseDate : string -> option (Z * Z * Z).

Abbreviation validateAndNormalize :=
  (validateAndNormalize localDate parseDate).

Lemma normalizeOptionalTime_not_date t :
  dateShaped (orEmpty (normalizeOptionalTime t)) = false.
Proof.
  unfold normalizeOptionalTime. destruct (truthy t); [|done].
  destruct (normalizeTime (orEmpty t)) as [v|] eqn:H; [|done].
  by apply normalizeTime_not_date in H.
Qed.

(** X17. What [validateAndNormalize] lets through.  It throws
    "Title is required" for a missing or empty title.  When it returns, the
    title is the trimmed title; [time] and [endTime] never hold a
    date-shaped string; a start time that is missing or that
    [normalizeTime] rejects leaves [time] absent (an all-day event); and
    the result never carries an event type or venue type. *)
Theorem validateAndNormalize_result (extracted : Event.DraftEvent) :
  (truthy (Event.title extracted) = false ->
   validateAndNormalize extracted = Throw "Title is required") /\
  (forall ev, validateAndNormalize extracted = Ok ev ->
     Event.title ev = Some (trim (orEmpty (Event.title extracted))) /\
     dateShaped (orEmpty (Event.time ev)) = false /\
     dateShaped (orEmpty (Event.endTime ev)) = false /\
     (truthy (Event.time extracted) = false \/
      throws (normalizeTime (orEmpty (Event.time extracted))) ->
      Event.time ev = None) /\
     Event.eventType ev = None /\ Event.venueType ev = None).
Proof.
  unfold GeminiExtractor.validateAndNormalize. split.
  - by intros ->.
  - intros ev. destruct (negb (truthy (Event.title extracted))); [done|].
    destruct (normalizeDate _ _ (Event.date extracted)) as [d|]; [|done].
    cbn [bindE]. intros [= <-]. cbn.
    split; [done|]. split; [apply normalizeOptionalTime_not_date|].
    split.
    + destruct (truthy (Event.endTime extracted)) eqn:He.
      * apply normalizeOptionalTime_not_date.
      * destruct (Event.endTime extracted) as [e|]; [|done].
        simpl in He. apply negb_false_iff, String.eqb_eq in He as ->. done.
    + split; [|done]. unfold normalizeOptionalTime.
      intros [-> | [e He]]; [done|]. rewrite He.
      by destruct (truthy (Event.time extracted)).
Qed.

End Validate.

End NormalizeSpec.

(** ** Combined frame analyses *)

Module FrameAnalysesSpec.
Import Js Str FrameAnalyses.

(** The first truthy value of a list of fields, [None] without one. *)
Definition firstTruthy (l : list (option string)) : option string :=
  match List.filter truthy l with
  | v :: _ => v
  | [] => None
  end.

Lemma firstTruthy_cons v l :
  firstTruthy (v :: l) = if truthy v then v else firstTruthy l.
Proof. unfold firstTruthy. simpl. by destruct (truthy v). Qed.

Lemma fold_keepFirst (f : Event.DraftEvent -> option string) :
  (forall c a, f (mergeAnalysis c a) = keepFirst (f c) (f (event a))) ->
  forall valid c,
    f c = None ->
    f (fold_left mergeAnalysis valid c) =
    firstTruthy (map (fun a => f (event a)) valid).
Proof.
  intros Hf.
  assert (forall valid c, truthy (f c) = true ->
            f (fold_left mergeAnalysis valid c) = f c) as Hkept.
  { intros valid. induction valid as [|a valid IH]; intros c Hc; [done|].
    cbn [fold_left].
    assert (f (mergeAnalysis c a) = f c) as Hstep.
    { rewrite Hf. unfold keepFirst. by rewrite Hc, andb_false_r. }
    rewrite IH; rewrite Hstep; done. }
  intros valid. induction valid as [|a valid IH]; intros c Hc.
  - cbn [fold_left map]. by rewrite Hc.
  - cbn [fold_left map]. rewrite firstTruthy_cons.
    assert (f (mergeAnalysis c a) =
            if truthy (f (event a)) then f (event a) else None) as Hstep.
    { rewrite Hf. unfold keepFirst. rewrite Hc. cbn [truthy negb].
      rewrite andb_true_r. done. }
    destruct (truthy (f (event a))) eqn:Ha.
    + rewrite Hkept; rewrite Hstep; done.
    + apply IH. by rewrite Hstep.
Qed.

Section Combined.

Variable titlePatterns : list (string -> option string).

Abbreviation combineFrameAnalyses := (combineFrameAnalyses titlePatterns).
Abbreviation fromText := (fromText titlePatterns).

Lemma fromText_fields combined allText :
  Event.date (fromText combined allText) = Event.date combined /\
  Event.time (fromText combined allText) = Event.time combined /\
  Event.endTime (fromText combined allText) = Event.endTime combined /\
  Event.location (fromText combined allText) = Event.location combined.
Proof.
  unfold FrameAnalyses.fromText.
  destruct (truthy (Some allText) && _); [|done].
  destruct (negb (truthy (Event.title combined)));
    [destruct (titleFromText _ _)|];
    match goal with
    | |- context [if ?b then _ else _] => destruct b
    end; done.
Qed.

(** X18. [combineFrameAnalyses] fills date, time, end time and location
    from the frames alone, first come first kept: each is the first truthy
    value among the analyses that report event information, in frame
    order, and absent when none of them has one.  The text of the frames
    never supplies them. *)
Theorem combineFrameAnalyses_first_wins (analyses : list Analysis)
    (combined : Event.DraftEvent) :
  combineFrameAnalyses analyses = Ok combined ->
  let valid := validAnalyses analyses in
  Event.date combined =
    firstTruthy (map (fun a => Event.date (event a)) valid) /\
  Event.time combined =
    firstTruthy (map (fun a => Event.time (event a)) valid) /\
  Event.endTime combined =
    firstTruthy (map (fun a => Event.endTime (event a)) valid) /\
  Event.location combined =
    firstTruthy (map (fun a => Event.location (event a)) valid).
Proof.
  unfold FrameAnalyses.combineFrameAnalyses. cbv zeta.
  destruct (validAnalyses analyses) as [|a valid] eqn:Hvalid.
  - cbn [length Nat.eqb]. destruct (truthy _); [|done].
    intros [= <-]. done.
  - cbn [length Nat.eqb]. intros [= <-].
    change (fold_left mergeAnalysis valid (mergeAnalysis noEvent a))
      with (fold_left mergeAnalysis (a :: valid) noEvent).
    destruct (fromText_fields
                (fold_left mergeAnalysis (a :: valid) noEvent)
                (allText (a :: valid))) as (-> & -> & -> & ->).
    repeat split.
    + by rewrite (fold_keepFirst Event.date).
    + by rewrite (fold_keepFirst Event.time).
    + by rewrite (fold_keepFirst Event.endTime).
    + by rewrite (fold_keepFirst Event.location).
Qed.

Variable localDate : Z -> Z -> Z -> option (Z * Z * Z).
Variable parseDate : string -> option (Z * Z * Z).
Variable titleMatch : string -> option string.

Abbreviation extractFromAnalyses :=
  (extractFromAnalyses titlePatterns localDate parseDate titleMatch).

(** X19. [extractFromVideoFrames] fails in exactly one case: no analysis
    reports event information and the frames' text is blank.  The error is
    then "Failed to extract from video frames: No event information found
    in video frames"; a combined event that does not validate is returned
    as a partial result instead of an error. *)
Theorem extractFromAnalyses_throws (analyses : list Analysis) :
  (throws (extractFromAnalyses analyses) <->
   validAnalyses analyses = [] /\ trim (allText analyses) = "") /\
  (forall message, extractFromAnalyses analyses = Throw message ->
   message =
   "Failed to extract from video frames: No event information found in video frames").
Proof.
  unfold FrameAnalyses.extractFromAnalyses,
    FrameAnalyses.combineFrameAnalyses. cbv zeta.
  destruct (validAnalyses analyses) as [|a valid] eqn:Hvalid;
    cbn [length Nat.eqb].
  - destruct (trim (allText analyses)) as [|c rest] eqn:Htrim.
    + cbn. split; [|by intros message [= <-]].
      split; [done|]. intros _. by eexists.
    + cbn [truthy negb String.eqb bindE tryCatch].
      match goal with
      | |- context [GeminiExtractor.validateAndNormalize ?l ?p ?e] =>
          destruct (GeminiExtractor.validateAndNormalize l p e)
      end; cbn [tryCatch]; (split; [|done]);
        (split; [by intros [e He] | by intros [_ ?]]).
  - cbn [bindE tryCatch].
    match goal with
    | |- context [GeminiExtractor.validateAndNormalize ?l ?p ?e] =>
        destruct (GeminiExtractor.validateAndNormalize l p e)
    end; cbn [tryCatch]; (split; [|done]);
      (split; [by intros [e He] | by intros [? _]]).
Qed.

End Combined.

(** Three frames: the first reports no event information, the second has a
    time and the third a date and another time. *)
Definition frame (date time : option string) (info : bool) : Analysis :=
  {| event :=
       {| Event.title := None; Event.description := None;
          Event.date := date; Event.time := time; Event.endTime := None;
          Event.location := None; Event.eventType := None;
          Event.venueType := None |};
     text := None; rawText := Some "{}"; hasEventInfo := Some info |}.

Definition threeFrames : list Analysis :=
  [ frame (Some "2025-01-01") None false;
    frame None (Some "20:00:00") true;
    frame (Some "2025-12-30") (Some "21:00:00") true ].

Lemma combineFrameAnalyses_first_wins_witness :
  exists combined,
    FrameAnalyses.combineFrameAnalyses [] threeFrames = Ok combined /\
    Event.date combined = Some "2025-12-30" /\
    Event.time combined = Some "20:00:00".
Proof.
  eexists. split; [reflexivity|].
  destruct (combineFrameAnalyses_first_wins [] threeFrames _ eq_refl)
    as (Hdate & Htime & _).
  split; [exact Hdate | exact Htime].
Defined.

End FrameAnalysesSpec.

(** ** Video links and download strategy *)

Module VideoUrlSpec.
Import Str RouteVideo VideoFrameExtractor.

(** X20. The route and the frame extractor agree on lower-case links.  A
    lower-case URL that [isVideoUrl] accepts for its domain alone (no video
    file extension in it) is never fetched by the plain download of
    [extractFrames]: it is streamed, or for TikTok downloaded, through
    yt-dlp. *)
Theorem video_domain_never_plain_download (url : string) :
  PlacesResolver.toLowerCase url = url ->
  isVideoUrl url = true ->
  existsb (includes url) videoExtensions = false ->
  strategyFor url <> Download.
Proof.
  unfold isVideoUrl. cbv zeta. intros -> Hvideo Hext.
  rewrite Hext in Hvideo.
  unfold strategyFor, ytDlpSupportedPlatforms.
  unfold videoDomains in Hvideo. cbn [existsb] in *.
  destruct (includes url "tiktok.com"); [done|].
  destruct (includes url "youtube.com"); [done|].
  destruct (includes url "youtu.be"); [done|].
  destruct (includes url "vimeo.com");
    [by rewrite ?orb_true_r; cbn [orb]|].
  destruct (includes url "dailymotion.com");
    [by rewrite ?orb_true_r; cbn [orb]|].
  done.
Qed.

Lemma video_domain_never_plain_download_witness :
  strategyFor "https://vimeo.com/76979871" <> Download.
Proof.
  apply (video_domain_never_plain_download "https://vimeo.com/76979871");
    reflexivity.
Defined.

(** The agreement needs the lower case: the route lowers the URL before it
    looks for a domain, the extractor does not. *)
Example mixed_case_link :
  isVideoUrl "https://Vimeo.com/76979871" = true /\
  strategyFor "https://Vimeo.com/76979871" = Download.
Proof. split; reflexivity. Qed.

End VideoUrlSpec.

(** ** The evenly spaced sampler *)

Module LegacySamplerSpec.
Import FrameSampler LegacySampler FrameSamplerSpec.

(** A timestamp of the evenly spaced sampler: not negative and not in the
    last tenth of the video. *)
Definition beforeLastTenth (duration : Q) (z : Z) : Prop :=
  0 <= z /\ (inject_Z z <= duration * 0.9)%Q.

Lemma floor_beforeLastTenth duration x :
  (0 <= x)%Q -> (x <= duration * 0.9)%Q ->
  beforeLastTenth duration (Qfloor x).
Proof.
  intros H0 Hx. split.
  - change 0 with (Qfloor 0). by apply Qfloor_resp_le.
  - eapply Qle_trans; [apply Qfloor_le | exact Hx].
Qed.

Lemma spacedLoop_spec duration frameCount :
  (0 <= duration)%Q -> 0 < frameCount ->
  forall indices timestamps,
    Forall (fun i => 0 < i) indices ->
    Forall (beforeLastTenth duration) timestamps ->
    Forall (beforeLastTenth duration)
      (spacedLoop indices duration frameCount timestamps) /\
    length (spacedLoop indices duration frameCount timestamps) =
    (length timestamps + length indices)%nat.
Proof.
  intros Hd Hfc indices.
  induction indices as [|i rest IH]; intros timestamps Hidx Hts.
  - simpl. split; [done | lia].
  - apply Forall_cons in Hidx as [Hi Hrest]. cbn [spacedLoop].
    assert (0 < inject_Z i / inject_Z frameCount)%Q as Hp.
    { apply Qlt_shift_div_l.
      - change 0%Q with (inject_Z 0). by rewrite <- Zlt_Qlt.
      - rewrite Qmult_0_l. change 0%Q with (inject_Z 0).
        by rewrite <- Zlt_Qlt. }
    set (percentage := (inject_Z i / inject_Z frameCount)%Q) in *.
    destruct (IH (timestamps ++
                  [Qfloor (if Qle_bool 0.9 percentage
                           then (duration * 0.9)%Q
                           else (duration * percentage)%Q)])
                Hrest) as [Hall Hlen].
    + apply Forall_app. split; [done|]. apply Forall_singleton.
      destruct (Qle_bool 0.9 percentage) eqn:Hge.
      * apply floor_beforeLastTenth; [|apply Qle_refl].
        apply Qmult_le_0_compat; [done | lra].
      * apply floor_beforeLastTenth.
        -- apply Qmult_le_0_compat; [done | lra].
        -- assert (percentage < 0.9)%Q as Hlt.
           { apply Qnot_le_lt. intros Hle.
             apply Qle_bool_iff in Hle. congruence. }
           nra.
    + split; [exact Hall|]. rewrite Hlen, length_app. simpl. lia.
Qed.



End LegacySamplerSpec.

(** ** Suggested tasks *)

Module TasksSpec.
Import Js Str TasksService.

(** The titles [generateSuggestedTasks] can give, in its order. *)
Definition suggestionTitles : list string :=
  [ "Plan travel route"; "Purchase tickets"; "Send RSVP";
    "Prepare materials"; "Check parking/transportation";
    "Make reservation" ].

Section Suggestions.

Variable oneDayBeforeIso : string -> Exc string.

Abbreviation generateSuggestedTasks :=
  (generateSuggestedTasks oneDayBeforeIso).

Local Ltac rule :=
  match goal with
  | |- context [bindE (if ?c then _ else _) _] =>
      destruct c; cbn [bindE app]
  end.



End Suggestions.

Definition concertNight : CanonicalEvent :=
  {| eventTitle := "Jazz Concert";
     eventDescription := Some "Tickets at the door";
     startTime := "2025-12-30T20:00:00";
     location := Some (Some "Blue Note", "131 W 3rd St") |}.



End TasksSpec.

(** ** Worked instances of the fusion and normalisation lemmas *)

Module FusionInstances.
Import Js Str Event ExtractRoute.

(** A page whose description analysis is complete and all-day, with an end
    time left over, next to frames that showed nothing. *)
Definition jazzPage : Metadata :=
  {| metaTitle := Some "Jazz Night"; metaDescription := None;
     imageUrl := None |}.

Definition pageOnly : Exc (Using * DraftEvent) :=
  stage3 (fun _ _ _ => None) (fun _ => None)
    (fun _ => Throw "No JSON found in response")
    jazzPage "" emptyAnalysis FusionSpec.jazzNight
    "https://vimeo.com/76979871".

Lemma stage3_all_day_elsewhere_witness :
  exists ev,
    pageOnly = Ok (UsingDescriptionAnalysis, ev) /\
    truthy (time ev) = false /\ truthy (endTime ev) = false.
Proof.
  eexists. split; [vm_compute; reflexivity|]. split; [reflexivity|].
  eapply (FusionSpec.stage3_all_day_elsewhere (fun _ _ _ => None)
            (fun _ => None) (fun _ => Throw "No JSON found in response")
            jazzPage "" emptyAnalysis FusionSpec.jazzNight
            "https://vimeo.com/76979871" UsingDescriptionAnalysis).
  - vm_compute. reflexivity.
  - discriminate.
  - reflexivity.
Defined.


Lemma combinedText_includes_witness :
  includes
    (combinedText jazzPage "doors open at seven thirty" emptyAnalysis
       FusionSpec.jazzNight "https://vimeo.com/76979871")
    "doors open at seven thirty" = true.
Proof.
  apply FusionSpec.combinedText_includes.
  - apply (bool_decide_unpack _). vm_compute. exact I.
  - discriminate.
Defined.

Lemma normalizeTime_shape_witness :
  testWhole GeminiExtractor.hhmmss "20:00:00" = true \/
  exists m,
    GeminiExtractor.amPmSearch (chars (trim "8pm")) = Some m /\
    GeminiExtractor.isPm m = true /\ 88 <= GeminiSpec.hourValue m.
Proof.
  apply (GeminiSpec.normalizeTime_shape "8pm" "20:00:00").
  vm_compute. reflexivity.
Defined.

End FusionInstances.
